(** * JARVIS local inference services: caches, telemetry loop, handlers

    A shallow embedding of the parts of the Python services that carry
    logic of their own:

    - [Piper/piper_server.py]: the TTS audio cache and [do_POST];
    - [embedding_server.py]: [manage_cache], [encode_texts], [embed];
    - [vision_server.py]: the [/embed/image] handler and its cache;
    - [gpu_monitor.py]: [detect_models], [get_recommendations],
      [get_gpu_stats] and one iteration of [monitor_loop];
    - [whisper_server_fixed.py]: the response of [/transcribe].

    Conventions.  Wall-clock readings ([time.time()]) and the float fields
    of a snapshot are rationals ([Q]); Python [int]s are [Z]; a [dict]
    whose iteration order is observed is an insertion-ordered association
    list ([PyDict]); a dict that is only looked up and inserted into is a
    [gmap].  A Python [str] whose length, slices or characters are observed
    is the list of its code points.  External collaborators (the Piper executable, the sentence
    encoder, CLIP, NVML, Whisper) are oracles passed as arguments, and the
    number of times a handler consults one is counted in the state. *)

From Stdlib Require Import QArith Qround.
From stdpp Require Import base option list strings pretty gmap.

Local Open Scope Q_scope.

(** Strict comparison on rationals, as a boolean. *)
Definition Qltb (x y : Q) : bool :=
  match x ?= y with Lt => true | _ => false end.

(** ** Python dictionaries, in insertion order

    [d[k] = v] keeps the position of a key that is already present and
    appends a new key; [del d[k]] removes the entry; iteration and
    [list(d.keys())] follow insertion order.  [del] is only ever reached in
    the sources with a key known to be present, so the [KeyError] of an
    absent key is not modelled: [del] of an absent key changes nothing. *)
Module PyDict.
Section Dict.
Context {K V : Type} `{EqDecision K}.

Fixpoint get (k : K) (d : list (K * V)) : option V :=
  match d with
  | [] => None
  | (k', v) :: r => if decide (k = k') then Some v else get k r
  end.

Definition contains (k : K) (d : list (K * V)) : bool :=
  match get k d with Some _ => true | None => false end.

Fixpoint set (k : K) (v : V) (d : list (K * V)) : list (K * V) :=
  match d with
  | [] => [(k, v)]
  | (k', v') :: r =>
      if decide (k = k') then (k, v) :: r else (k', v') :: set k v r
  end.

Fixpoint del (k : K) (d : list (K * V)) : list (K * V) :=
  match d with
  | [] => []
  | (k', v') :: r => if decide (k = k') then r else (k', v') :: del k r
  end.

Definition keys (d : list (K * V)) : list K := map fst d.

Definition len (d : list (K * V)) : nat := length d.

(** A dictionary holds each key once. *)
Definition wf (d : list (K * V)) : Prop := NoDup (keys d).

End Dict.
End PyDict.

(** ** Piper TTS wrapper ([Piper/piper_server.py]) *)
Module Piper.

Definition bytes := list Byte.byte.

(** [audio_cache]: [{text_hash: (audio_data, timestamp)}]. *)
Abbreviation entry := (bytes * Q)%type (only parsing).
Abbreviation cache := (list (string * (bytes * Q))) (only parsing).

Definition CACHE_MAX_SIZE : nat := 50.
Definition CACHE_TTL_SECONDS : Q := 300.

(** [_get_from_cache(key)], reading the clock as [now]: the returned
    value ([None] for a miss) and the cache it leaves behind. *)
Definition _get_from_cache (now : Q) (key : string) (audio_cache : cache)
  : option bytes * cache :=
  match PyDict.get key audio_cache with
  | Some (data, timestamp) =>
      if Qltb (now - timestamp) CACHE_TTL_SECONDS
      then (Some data, audio_cache)
      else (None, PyDict.del key audio_cache)
  | None => (None, audio_cache)
  end.

(** [min(audio_cache.keys(), key=lambda k: audio_cache[k][1])]: the scan
    keeps the first item and replaces it only by a strictly smaller
    timestamp, so among equal timestamps the earliest inserted key wins.
    On an empty dictionary [min] raises [ValueError]. *)
Fixpoint min_from (best : string * entry) (rest : cache) : string :=
  match rest with
  | [] => best.1
  | e :: r =>
      if Qltb e.2.2 best.2.2 then min_from e r else min_from best r
  end.

Definition oldest_key (audio_cache : cache) : option string :=
  match audio_cache with
  | [] => None
  | e :: r => Some (min_from e r)
  end.

(** [_add_to_cache(key, data)], reading the clock as [now].  [None]
    stands for the [ValueError] of [min] on an empty dictionary. *)
Definition _add_to_cache (now : Q) (key : string) (data : bytes)
    (audio_cache : cache) : option cache :=
  if decide (CACHE_MAX_SIZE <= PyDict.len audio_cache)%nat then
    match oldest_key audio_cache with
    | Some oldest => Some (PyDict.set key (data, now) (PyDict.del oldest audio_cache))
    | None => None
    end
  else Some (PyDict.set key (data, now) audio_cache).

(** The decoded JSON body of a [/tts] request.  A field that is absent is
    [None]; the numeric fields are held as the text that the f-string of
    the cache key renders for them. *)
Record tts_body := {
  text : option string;
  speaker_id : option string;
  speaker : option string;
  length_scale : option string;
  noise_scale : option string;
  noise_w : option string
}.

(** What [_synthesize_audio] can do: return the WAV bytes, return [None]
    (non-zero exit code of Piper), or raise. *)
Inductive synth_result :=
| Audio (wav : bytes)
| PiperFailed
| SynthRaised.

Record synth_args := {
  a_text : string;
  a_speaker_id : string;
  a_length_scale : string;
  a_noise_scale : string;
  a_noise_w : string
}.

Record response := { status : nat; body : bytes }.

Record server := {
  audio_cache : cache;
  piper_calls : nat   (* invocations of the Piper executable so far *)
}.

Definition cache_key (a : synth_args) : string :=
  a_text a +:+ "_" +:+ a_speaker_id a +:+ "_" +:+ a_length_scale a
    +:+ "_" +:+ a_noise_scale a +:+ "_" +:+ a_noise_w a.

Definition args_of (b : tts_body) : synth_args :=
  {| a_text := default "" (text b);
     a_speaker_id := default (default "0" (speaker b)) (speaker_id b);
     a_length_scale := default "0.75" (length_scale b);
     a_noise_scale := default "0.667" (noise_scale b);
     a_noise_w := default "0.8" (noise_w b) |}.

Definition _send_audio (audio_data : bytes) : response :=
  {| status := 200; body := audio_data |}.

Definition empty_response (code : nat) : response :=
  {| status := code; body := [] |}.

Section Handler.
(** The Piper executable: its answer to the [n]-th invocation. *)
Variable piper : nat -> synth_args -> synth_result.

(** [do_POST].  [t_get] and [t_put] are the two clock readings, taken in
    [_get_from_cache] and in [_add_to_cache]; [payload] is [None] when
    the body does not decode to a JSON object (the handler's [except]
    answers 500). *)
Definition do_POST (t_get t_put : Q) (path : string)
    (payload : option tts_body) (s : server) : response * server :=
  if bool_decide (path = "/tts" \/ path = "/synthesize") then
    match payload with
    | None => (empty_response 500, s)
    | Some b =>
        let a := args_of b in
        if bool_decide (a_text a = "") then (empty_response 400, s)
        else
          let key := cache_key a in
          let '(cached_result, c1) := _get_from_cache t_get key (audio_cache s) in
          match cached_result with
          | Some ((_ :: _) as wav) =>
              (_send_audio wav, {| audio_cache := c1; piper_calls := piper_calls s |})
          | _ =>
              let calls := S (piper_calls s) in
              match piper (piper_calls s) a with
              | Audio audio_data =>
                  match _add_to_cache t_put key audio_data c1 with
                  | Some c2 =>
                      (_send_audio audio_data,
                       {| audio_cache := c2; piper_calls := calls |})
                  | None =>
                      (empty_response 500,
                       {| audio_cache := c1; piper_calls := calls |})
                  end
              | PiperFailed | SynthRaised =>
                  (empty_response 500,
                   {| audio_cache := c1; piper_calls := calls |})
              end
          end
    end
  else (empty_response 404, s).
End Handler.

End Piper.

(** ** Text embedding server ([embedding_server.py]) *)
Module Embedding.

(** A Python [str], as the sequence of its code points: [len(t)] is
    [length t] and [t[:n]] is [take n t]. *)
Abbreviation str := (list N) (only parsing).

(** One embedding: a row of floats. *)
Abbreviation vec := (list Q) (only parsing).

(** [embedding_cache]: cache key to embedding, in insertion order. *)
Abbreviation cache := (list (string * vec)) (only parsing).

Definition CACHE_SIZE_LIMIT : Z := 10000.

(** The numpy values that [encode_texts] and [embed] tell apart by
    [ndim]: a scalar, a row, a matrix given by its rows. *)
Inductive ndarray :=
| Arr0 (x : Q)
| Arr1 (row : vec)
| Arr2 (rows : list vec).

(** [np.array(rows)] for a list of rows: the empty list gives the empty
    one-dimensional array, rows of one length a matrix; [None] is the
    [ValueError] numpy raises for rows of different lengths (numpy before
    1.24 builds an array of objects instead, which [jsonify] refuses: the
    handlers answer 500 either way). *)
Definition np_array (rows : list vec) : option ndarray :=
  match rows with
  | [] => Some (Arr1 [])
  | r :: rest =>
      if forallb (fun r' => length r' =? length r)%nat rest
      then Some (Arr2 rows) else None
  end.

(** [a[0]]; [None] is the [IndexError]. *)
Definition index0 (a : ndarray) : option ndarray :=
  match a with
  | Arr2 (r :: _) => Some (Arr1 r)
  | Arr1 (x :: _) => Some (Arr0 x)
  | _ => None
  end.

(** [manage_cache()]: above the limit, delete the first
    [CACHE_SIZE_LIMIT // 5] keys of the dictionary. *)
Definition manage_cache (c : cache) : cache :=
  if decide (CACHE_SIZE_LIMIT < Z.of_nat (PyDict.len c))%Z then
    let keys_to_remove := take (Z.to_nat (CACHE_SIZE_LIMIT / 5)) (PyDict.keys c) in
    foldl (fun c key => PyDict.del key c) c keys_to_remove
  else c.

(** The sentence encoder, [all-MiniLM-L6-v2].  A call on a batch either
    raises or returns a matrix with one row of 384 floats per text of the
    batch; [entry n batch i j] is the float in row [i], column [j], of
    the answer to the [n]-th call. *)
Record encoder := {
  raises : nat -> list str -> bool;
  entry : nat -> list str -> nat -> nat -> Q
}.

Definition row (m : encoder) (n : nat) (batch : list str) (i : nat) : vec :=
  map (entry m n batch i) (seq 0 384).

Definition run_encoder (m : encoder) (n : nat) (batch : list str)
  : option (list vec) :=
  if raises m n batch then None
  else Some (map (row m n batch) (seq 0 (length batch))).

Record server := {
  embedding_cache : cache;
  encoder_calls : nat   (* calls of [model.encode] so far *)
}.

Inductive texts_arg :=
| Single (t : str)
| Many (ts : list str).

(** [embeddings[idx] = v] on a matrix with 384 columns: a row of 384
    floats is copied, a row of one float is broadcast over the columns,
    and [None] is the [ValueError] of any other shape.  The indices the
    server assigns at are positions of the request, below the number of
    rows. *)
Definition assign_row (idx : nat) (v : vec) (rows : list vec) : option (list vec) :=
  if decide (length v = 384%nat) then Some (<[idx := v]> rows)
  else
    match v with
    | [x] => Some (<[idx := replicate 384 x]> rows)
    | _ => None
    end.

(** [embeddings[idx] = v] for each pair, in order. *)
Fixpoint fill (rows : list vec) (assignments : list (nat * vec)) : option (list vec) :=
  match assignments with
  | [] => Some rows
  | (idx, v) :: rest => assign_row idx v rows ≫= fun rows' => fill rows' rest
  end.

(** [[cached_results[i] for i in range(n)]]; [None] is the [KeyError]. *)
Definition rows_by_index (cached_results : list (nat * vec)) (n : nat)
  : option (list vec) :=
  mapM (fun i => PyDict.get i cached_results) (seq 0 n).

(** [round(x, 2)], to the nearest hundredth and to the even one on a tie. *)
Definition round_half_even (x : Q) : Z :=
  let f := Qfloor x in
  let d := x - inject_Z f in
  if Qltb d (1 # 2) then f
  else if Qltb (1 # 2) d then (f + 1)%Z
  else if Z.even f then f else (f + 1)%Z.

Definition round2 (x : Q) : Q := inject_Z (round_half_even (x * 100)) / 100.

Section Server.
(** [hashlib.md5(b).hexdigest()] of the UTF-8 encoding [b] of a text. *)
Variable md5_hex : str -> string.

(** [text.encode()] succeeds unless the text holds a surrogate code
    point (U+D800 to U+DFFF), which JSON escapes can produce. *)
Definition utf8_encodable (text : str) : bool :=
  forallb (fun c => negb ((55296 <=? c) && (c <=? 57343)))%N text.

(** [get_cache_key(text)]; [None] is the [UnicodeEncodeError] of
    [text.encode()]. *)
Definition get_cache_key (text : str) : option string :=
  if utf8_encodable text then Some (String.substring 0 16 (md5_hex text)) else None.

(** The lookup loop of [encode_texts], started at index [i]:
    [cached_results], [texts_to_encode], [text_indices]; [None] when
    [get_cache_key] raises.  The loop only fills local variables. *)
Fixpoint scan_cache (c : cache) (i : nat) (texts : list str)
  : option (list (nat * vec) * list str * list nat) :=
  match texts with
  | [] => Some ([], [], [])
  | text :: rest =>
      match get_cache_key text with
      | None => None
      | Some cache_key =>
          match scan_cache c (S i) rest with
          | None => None
          | Some (cached_results, texts_to_encode, text_indices) =>
              match PyDict.get cache_key c with
              | Some v => Some ((i, v) :: cached_results, texts_to_encode, text_indices)
              | None => Some (cached_results, text :: texts_to_encode, i :: text_indices)
              end
          end
      end
  end.

(** The store loop: [embedding_cache[get_cache_key(text)] = new_embeddings[i]].
    The result is the cache as the loop leaves it and whether
    [get_cache_key] raised on the way. *)
Fixpoint store (c : cache) (texts_to_encode : list str)
    (new_embeddings : list vec) : cache * bool :=
  match texts_to_encode, new_embeddings with
  | text :: texts', v :: vs =>
      match get_cache_key text with
      | Some cache_key => store (PyDict.set cache_key v c) texts' vs
      | None => (c, true)
      end
  | _, _ => (c, false)
  end.

(** [encode_texts(texts, use_cache)].  The result is [None] when an
    exception is raised. *)
Definition encode_texts (m : encoder) (arg : texts_arg) (use_cache : bool)
    (s : server) : option ndarray * server :=
  let '(texts, single_input) :=
    match arg with
    | Single t => ([t], true)
    | Many ts => (ts, false)
    end in
  let finish (embeddings : ndarray) : option ndarray :=
    if single_input then index0 embeddings else Some embeddings in
  match (if use_cache then scan_cache (embedding_cache s) 0 texts
         else Some (@nil (nat * vec), texts, seq 0 (length texts))) with
  | None => (None, s)
  | Some (cached_results, texts_to_encode, text_indices) =>
      match texts_to_encode with
      | [] =>
          (* all cached, or nothing to encode *)
          ((rows_by_index cached_results (length texts) ≫= np_array) ≫= finish, s)
      | _ :: _ =>
          let calls := S (encoder_calls s) in
          match run_encoder m (encoder_calls s) texts_to_encode with
          | None =>
              (None, {| embedding_cache := embedding_cache s; encoder_calls := calls |})
          | Some new_embeddings =>
              if use_cache then
                match store (embedding_cache s) texts_to_encode new_embeddings with
                | (c, true) =>
                    (None, {| embedding_cache := c; encoder_calls := calls |})
                | (c, false) =>
                    let embeddings :=
                      match cached_results with
                      | _ :: _ =>
                          fill (replicate (length texts) (replicate 384 0))
                               (zip text_indices new_embeddings)
                            ≫= fun rows => fill rows cached_results
                      | [] => Some new_embeddings
                      end in
                    (embeddings ≫= fun rows => finish (Arr2 rows),
                     {| embedding_cache := manage_cache c; encoder_calls := calls |})
                end
              else
                (finish (Arr2 new_embeddings),
                 {| embedding_cache := embedding_cache s; encoder_calls := calls |})
          end
      end
  end.

(** The [texts] field of a request body: a JSON string, a JSON array of
    strings, or a value of another JSON type.  Arrays with an element
    that is not a string are outside the model. *)
Inductive texts_field :=
| TStr (t : str)
| TList (ts : list str)
| TOther.

(** A JSON object with a ['texts'] key.  [use_cache] is absent or a JSON
    boolean; other JSON values, which Python would test for truth, are
    outside the model. *)
Record embed_body := {
  texts : texts_field;
  use_cache_field : option bool
}.

(** What [request.get_json()] yields, as far as [embed] tells apart:
    an exception up to the lookup [data['texts']] ([get_json] raises on
    an empty or malformed body or a wrong content type; the test
    ['texts' not in data] raises on a number; the lookup raises on a
    string or an array in which ['texts'] is found); a value that is
    falsy or in which ['texts'] is not found; an object with a ['texts']
    key. *)
Inductive payload :=
| Unreadable
| NoTexts
| Json (data : embed_body).

(** Responses of [/embed]; [device], a constant of the process, is left
    out. *)
Inductive response :=
| ClientError (code : nat) (error : string)
| ServerError                  (* 500, [str(e)] *)
| Embeddings (embeddings : list vec) (dimension count : nat) (time_ms : Q)
             (cached : bool).

Definition status (r : response) : nat :=
  match r with
  | ClientError code _ => code
  | ServerError => 500
  | Embeddings _ _ _ _ _ => 200
  end.

(** [POST /embed]; [start_time] and [end_time] are the two readings of
    the clock. *)
Definition embed (m : encoder) (start_time end_time : Q) (body : payload)
    (s : server) : response * server :=
  match body with
  | Unreadable => (ServerError, s)
  | NoTexts => (ClientError 400 "Missing 'texts' field in request body", s)
  | Json data =>
      let use_cache := default true (use_cache_field data) in
      let validated : response + texts_arg :=
        match texts data with
        | TStr t =>
            if decide (10000 < Z.of_nat (length t))%Z
            then inl (ClientError 400 "Text too long (max 10000 chars)")
            else inr (Single t)
        | TList ts =>
            if decide (1000 < Z.of_nat (length ts))%Z
            then inl (ClientError 400 "Too many texts (max 1000)")
            else inr (Many (map (take (Z.to_nat 10000)) ts))
        | TOther => inl (ClientError 400 "texts must be string or array")
        end in
      match validated with
      | inl r => (r, s)
      | inr arg =>
          let elapsed_ms := (end_time - start_time) * 1000 in
          match encode_texts m arg use_cache s with
          | (Some (Arr2 rows), s') =>
              (Embeddings rows 384 (length rows) (round2 elapsed_ms) use_cache, s')
          | (Some (Arr1 r), s') =>
              (* [reshape(1, -1)] *)
              (Embeddings [r] 384 1 (round2 elapsed_ms) use_cache, s')
          | (Some (Arr0 _), s') | (None, s') => (ServerError, s')
          end
      end
  end.
End Server.

End Embedding.

(** ** CLIP vision server ([vision_server.py]) *)
Module Vision.

Definition vec := list Q.

Definition CACHE_SIZE : Z := 1000.

Record VisionCacheEntry := {
  key : string;
  embedding : vec;
  timestamp : Q
}.

Record server := {
  cache : gmap string VisionCacheEntry;
  clip_calls : nat   (* images decoded and embedded so far *)
}.

Record image_body := {
  image : option string;
  use_cache : option bool
}.

(** Responses of [/embed/image]; [time_ms] is left out. *)
Inductive response :=
| ClientError (code : nat) (error : string)
| ServerError
| ImageEmbedding (v : vec) (cached : bool).

Section Server.
(** [hashlib.md5(s.encode()).hexdigest()]. *)
Variable md5_hex : string -> string.

(** [decode_image] followed by [get_image_embedding], at the [n]-th
    use; [None] when either raises. *)
Variable clip : nat -> string -> option vec.

Definition get_cache_key (image_data : string) : string :=
  md5_hex (String.substring 0 1000 image_data).

(** [POST /embed/image], with the clock read as [now] when the entry is
    built.  [payload] is [None] when the body is not a JSON object. *)
Definition embed_image (now : Q) (payload : option image_body) (s : server)
  : response * server :=
  match payload with
  | None => (ServerError, s)
  | Some data =>
      let image_data := default "" (image data) in
      let use_cache := default true (use_cache data) in
      if bool_decide (image_data = "") then
        (ClientError 400 "No image provided", s)
      else
        let cache_key := get_cache_key image_data in
        match (if use_cache then cache s !! cache_key else None) with
        | Some entry => (ImageEmbedding (embedding entry) true, s)
        | None =>
            let calls := S (clip_calls s) in
            match clip (clip_calls s) image_data with
            | None => (ServerError, {| cache := cache s; clip_calls := calls |})
            | Some emb =>
                let cache' :=
                  if use_cache
                  then <[cache_key := {| key := cache_key; embedding := emb;
                                         timestamp := now |}]> (cache s)
                  else cache s in
                (ImageEmbedding emb false,
                 {| cache := cache'; clip_calls := calls |})
            end
        end
  end.

(** A run of the handler over successive requests. *)
Fixpoint serve (reqs : list (Q * option image_body)) (s : server) : server :=
  match reqs with
  | [] => s
  | (now, payload) :: rest => serve rest (embed_image now payload s).2
  end.
End Server.

End Vision.

(** ** GPU monitor ([gpu_monitor.py]) *)
Module GpuMonitor.

(** An entry of [GpuStats.processes]. *)
Record process := {
  pid : Z;
  name : string;
  vram_mb : Z;
  proc_type : string
}.

Record GpuStats := {
  timestamp : Q;
  gpu_name : string;
  gpu_id : Z;
  vram_total : Z;
  vram_used : Z;
  vram_free : Z;
  vram_percent : Q;
  gpu_utilization : Z;
  memory_utilization : Z;
  temperature : Z;
  power_draw : Q;
  power_limit : Q;
  graphics_clock : Z;
  memory_clock : Z;
  sm_clock : Z;
  processes : list process
}.

(** [self.model_patterns], in the order the dictionary literal lists it. *)
Definition model_patterns : list (string * list string) :=
  [ ("ollama", ["ollama"; "llama"; "mistral"; "codellama"]);
    ("whisper", ["whisper"; "stt"]);
    ("embedding", ["embedding"; "sentence"]);
    ("python", ["python.exe"; "python3"]) ].

(** [pattern in s] on strings. *)
Fixpoint is_substring (pattern s : string) : bool :=
  String.prefix pattern s ||
  match s with
  | EmptyString => false
  | String _ rest => is_substring pattern rest
  end.

(** The value returned by [detect_models]: its four lists. *)
Record detected := {
  llm : list process;
  whisper : list process;
  embedding : list process;
  other : list process
}.

Definition no_models : detected :=
  {| llm := []; whisper := []; embedding := []; other := [] |}.

Definition append_llm (proc : process) (d : detected) : detected :=
  {| llm := llm d ++ [proc]; whisper := whisper d;
     embedding := embedding d; other := other d |}.
Definition append_whisper (proc : process) (d : detected) : detected :=
  {| llm := llm d; whisper := whisper d ++ [proc];
     embedding := embedding d; other := other d |}.
Definition append_embedding (proc : process) (d : detected) : detected :=
  {| llm := llm d; whisper := whisper d;
     embedding := embedding d ++ [proc]; other := other d |}.
Definition append_other (proc : process) (d : detected) : detected :=
  {| llm := llm d; whisper := whisper d;
     embedding := embedding d; other := other d ++ [proc] |}.

(** [any(pattern in name_lower for pattern in patterns)]. *)
Definition any_pattern_in (patterns : list string) (name_lower : string) : bool :=
  existsb (fun pattern => is_substring pattern name_lower) patterns.

(** The inner loop of [detect_models] over [model_patterns.items()]: the
    updated lists and the [assigned] flag. *)
Fixpoint assign (items : list (string * list string)) (name_lower : string)
    (proc : process) (d : detected) : detected * bool :=
  match items with
  | [] => (d, false)
  | (model_type, patterns) :: rest =>
      if any_pattern_in patterns name_lower then
        (if bool_decide (model_type = "ollama") then append_llm proc d
         else if bool_decide (model_type = "whisper") then append_whisper proc d
         else if bool_decide (model_type = "embedding") then append_embedding proc d
         else append_other proc d,
         true)
      else assign rest name_lower proc d
  end.

Definition MSG_VRAM_CRITICAL : string :=
  "VRAM critically high! Consider unloading unused models.".
Definition MSG_VRAM_HIGH : string :=
  "VRAM usage is high. Unload unused models to free space.".
Definition MSG_TEMP_CRITICAL : string :=
  "GPU temperature is very high! Check cooling.".
Definition MSG_TEMP_ELEVATED : string :=
  "GPU temperature is elevated. Ensure good airflow.".
Definition MSG_POWER : string :=
  "Power draw near limit. Performance may be throttled.".
Definition MSG_IDLE : string :=
  "GPU idle but VRAM in use. Consider unloading unused models.".
Definition MSG_NORMAL : string :=
  "GPU operating normally".

(** [get_recommendations(stats)].  The messages are the source's texts
    without their leading pictograph. *)
Definition get_recommendations (stats : GpuStats) : list string :=
  let recommendations :=
    (if Qltb 90 (vram_percent stats) then [MSG_VRAM_CRITICAL]
     else if Qltb 75 (vram_percent stats) then [MSG_VRAM_HIGH]
     else [])
    ++ (if decide (85 < temperature stats)%Z then [MSG_TEMP_CRITICAL]
        else if decide (80 < temperature stats)%Z then [MSG_TEMP_ELEVATED]
        else [])
    ++ (if Qltb (power_limit stats * (9 # 10)) (power_draw stats)
        then [MSG_POWER] else [])
    ++ (if bool_decide (gpu_utilization stats < 10)%Z && bool_decide (4000 < vram_used stats)%Z
        then [MSG_IDLE] else []) in
  match recommendations with
  | [] => [MSG_NORMAL]
  | _ => recommendations
  end.

(** [_get_mock_stats()], with the clock read as [now]. *)
Definition _get_mock_stats (now : Q) : GpuStats :=
  {| timestamp := now;
     gpu_name := "NVIDIA GeForce GTX 1080 Ti (MOCK)";
     gpu_id := 0;
     vram_total := 11264; vram_used := 6144; vram_free := 5120;
     vram_percent := 545 # 10;
     gpu_utilization := 75; memory_utilization := 60;
     temperature := 72;
     power_draw := 1855 # 10; power_limit := 250;
     graphics_clock := 1607; memory_clock := 5005; sm_clock := 1607;
     processes :=
       [ {| pid := 1234; name := "ollama.exe"; vram_mb := 5120; proc_type := "compute" |};
         {| pid := 5678; name := "python.exe"; vram_mb := 512; proc_type := "compute" |} ] |}.

(** What the NVML queries in the [try] block of [get_gpu_stats] come to:
    the assembled snapshot, or an exception with its text. *)
Inductive nvml_sample :=
| Sampled (stats : GpuStats)
| NvmlRaised (e : string).

Record monitor := {
  nvml_available : bool;       (* NVML_AVAILABLE *)
  handle : option Z;
  history : list GpuStats;     (* deque(maxlen=300), oldest first *)
  running : bool;
  clients : gset nat;          (* the connected websockets *)
  log : list string            (* what was written to the logger *)
}.

(** [get_gpu_stats()]: the snapshot, if any, and the lines it logs. *)
Definition get_gpu_stats (now : Q) (nvml : nvml_sample) (m : monitor)
  : option GpuStats * list string :=
  if negb (nvml_available m) || bool_decide (handle m = None) then
    (Some (_get_mock_stats now), [])
  else
    match nvml with
    | Sampled stats => (Some stats, [])
    | NvmlRaised e => (None, ["Error getting GPU stats: " +:+ e])
    end.

(** [self.history.append(stats)] on a [deque(maxlen=300)]. *)
Definition history_append (stats : GpuStats) (h : list GpuStats) : list GpuStats :=
  let h' := h ++ [stats] in
  drop (length h' - 300) h'.

(** [list(self.history)[-60:]]. *)
Definition last60 (h : list GpuStats) : list GpuStats :=
  drop (length h - 60) h.

(** The frame broadcast by the loop ([type] is always ['gpu_stats']). *)
Record message := {
  current : GpuStats;
  models : detected;
  recommendations : list string;
  msg_history : list GpuStats
}.

(** What one iteration meets: the clock, the outcome of the NVML
    queries, an exception raised while the frame is put together (none
    of the modelled steps raises one; this stands for any failure of the
    runtime between the history append and the broadcast), and which
    clients accept a send. *)
Record tick_env := {
  now : Q;
  nvml : nvml_sample;
  body_raises : option string;
  send_ok : nat -> bool
}.

(** What one iteration does: the monitor it leaves, the argument of the
    [asyncio.sleep] it ends with, and the frames that were delivered. *)
Record tick_result := {
  next : monitor;
  slept : Z;
  delivered : list (nat * message)
}.

Definition with_log (lines : list string) (m : monitor) : monitor :=
  {| nvml_available := nvml_available m; handle := handle m;
     history := history m; running := running m; clients := clients m;
     log := log m ++ lines |}.
Definition with_history (h : list GpuStats) (m : monitor) : monitor :=
  {| nvml_available := nvml_available m; handle := handle m;
     history := h; running := running m; clients := clients m;
     log := log m |}.
Definition with_clients (cs : gset nat) (m : monitor) : monitor :=
  {| nvml_available := nvml_available m; handle := handle m;
     history := history m; running := running m; clients := cs;
     log := log m |}.

Section Loop.
(** [str.lower]. *)
Variable lower : string -> string.

(** [detect_models(processes)]. *)
Definition detect_models (procs : list process) : detected :=
  foldl (fun d proc =>
           let '(d', assigned) := assign model_patterns (lower (name proc)) proc d in
           if assigned then d' else append_other proc d')
        no_models procs.

(** One iteration of the [while self.running] loop of [monitor_loop]. *)
Definition monitor_tick (env : tick_env) (m : monitor) : tick_result :=
  let '(sample, lines) := get_gpu_stats (now env) (nvml env) m in
  let m := with_log lines m in
  match sample with
  | None => {| next := m; slept := 1; delivered := [] |}
  | Some stats =>
      let m := with_history (history_append stats (history m)) m in
      match body_raises env with
      | Some e =>
          {| next := with_log ["Error in monitor loop: " +:+ e] m;
             slept := 5; delivered := [] |}
      | None =>
          let frame :=
            {| current := stats;
               models := detect_models (processes stats);
               recommendations := get_recommendations stats;
               msg_history := last60 (history m) |} in
          if bool_decide (clients m = ∅) then
            {| next := m; slept := 1; delivered := [] |}
          else
            let disconnected := filter (fun c => send_ok env c = false) (clients m) in
            {| next := with_clients (clients m ∖ disconnected) m;
               slept := 1;
               delivered :=
                 (fun c => (c, frame)) <$>
                   filter (fun c => send_ok env c = true) (elements (clients m)) |}
      end
  end.

(** The loop over the iterations for which an environment is given;
    it leaves as soon as [running] is false. *)
Fixpoint monitor_loop (envs : list tick_env) (m : monitor)
  : list tick_result * monitor :=
  match envs with
  | [] => ([], m)
  | env :: rest =>
      if running m then
        let r := monitor_tick env m in
        let '(rs, m') := monitor_loop rest (next r) in
        (r :: rs, m')
      else ([], m)
  end.
End Loop.

End GpuMonitor.

(** ** Whisper speech-to-text server ([whisper_server_fixed.py]) *)
Module Whisper.

(** The transcription text, as its sequence of code points. *)
Definition text := list N.

(** [str.isspace] of a single character. *)
Definition isspace (c : N) : bool :=
  ((9 <=? c) && (c <=? 13) || (28 <=? c) && (c <=? 32)
   || (c =? 133) || (c =? 160) || (c =? 5760)
   || (8192 <=? c) && (c <=? 8202)
   || (c =? 8232) || (c =? 8233) || (c =? 8239) || (c =? 8287)
   || (c =? 12288))%N.

Fixpoint lstrip (s : text) : text :=
  match s with
  | c :: rest => if isspace c then lstrip rest else s
  | [] => []
  end.

Definition rstrip (s : text) : text := reverse (lstrip (reverse s)).

(** [s.strip()]. *)
Definition strip (s : text) : text := rstrip (lstrip s).

(** [s.endswith(suffix)] and [s.endswith((suffix, ...))]. *)
Definition endswith {A} `{EqDecision A} (s suffix : list A) : bool :=
  bool_decide (drop (length s - length suffix) s = suffix).

Definition endswith_any {A} `{EqDecision A} (s : list A) (suffixes : list (list A)) : bool :=
  existsb (endswith s) suffixes.

Definition FULL_STOP : N := 46.
Definition EXCLAMATION : N := 33.
Definition QUESTION : N := 63.

(** [text.endswith(('.', '!', '?')) if text else False]. *)
Definition is_final (stripped : text) : bool :=
  match stripped with
  | [] => false
  | _ => endswith_any stripped [[FULL_STOP]; [EXCLAMATION]; [QUESTION]]
  end.

Definition audio_suffixes : list string :=
  [".wav"; ".mp3"; ".flac"; ".webm"; ".m4a"; ".ogg"].

(** The uploaded file: its name and the number of bytes saved. *)
Record upload := {
  filename : string;
  saved_size : Z
}.

Record request := {
  audio : option upload;        (* request.files['audio'] *)
  language_field : option string;
  partial_field : option string
}.

(** The JSON of a successful response; [processing_time] is left out. *)
Record transcription := {
  r_text : text;
  r_language : string;
  r_device : string;
  isFinal : bool;
  isPartial : option bool       (* present only when partial was asked *)
}.

Inductive response :=
| ClientError (code : nat) (error : string)
| ServerError
| Transcribed (r : transcription).

Section Handler.
(** [werkzeug.utils.secure_filename] and [str.lower]. *)
Variable secure_filename : string -> string.
Variable lower : string -> string.
Variable DEVICE : string.

(** [model.transcribe(path, language=..., ...)["text"]]; [None] when it
    raises. *)
Variable whisper_model : upload -> string -> option text.

(** [POST /transcribe]. *)
Definition transcribe (req : request) : response :=
  match audio req with
  | None => ClientError 400 "No audio file provided"
  | Some audio_file =>
      if bool_decide (filename audio_file = "") then
        ClientError 400 "No audio file selected"
      else
        let fname := secure_filename (filename audio_file) in
        if negb (endswith_any (String.list_ascii_of_string (lower fname))
                   (String.list_ascii_of_string <$> audio_suffixes)) then
          ClientError 400 ("Unsupported file type: " +:+ fname)
        else
          let language := default "en" (language_field req) in
          let partial :=
            bool_decide (lower (default "false" (partial_field req)) = "true") in
          if bool_decide (saved_size audio_file = 0%Z) then
            ClientError 400 "Uploaded file is empty"
          else
            match whisper_model audio_file language with
            | None => ServerError
            | Some raw =>
                let stripped := strip raw in
                let final := is_final stripped in
                Transcribed
                  {| r_text := stripped;
                     r_language := language;
                     r_device := DEVICE;
                     isFinal := final;
                     isPartial := if partial then Some (negb final) else None |}
            end
  end.
End Handler.

End Whisper.

(** * Properties *)

(** ** Concrete texts

    The code points of an ASCII literal, and a stand-in for the MD5 hex
    digest in concrete runs: the text itself, so that a short ASCII text
    is its own cache key. *)
Definition code_points (s : string) : list N :=
  (fun c => N.of_nat (Ascii.nat_of_ascii c)) <$> String.list_ascii_of_string s.

Definition plain_digest (t : list N) : string :=
  String.string_of_list_ascii (Ascii.ascii_of_N <$> t).

(** ** Rational comparison *)

Lemma Qltb_lt x y : Qltb x y = true <-> x < y.
Proof.
  unfold Qltb. rewrite Qlt_alt. destruct (x ?= y); split; congruence.
Qed.

Lemma Qltb_ge x y : Qltb x y = false <-> y <= x.
Proof.
  split.
  - intros H. apply Qnot_lt_le. intros Hlt. apply Qltb_lt in Hlt. congruence.
  - intros H. destruct (Qltb x y) eqn:E; [|done].
    apply Qltb_lt in E. exfalso. exact (Qlt_not_le _ _ E H).
Qed.

(** ** Facts about insertion-ordered dictionaries *)
Module PyDictFacts.
Import PyDict.
Section Facts.
Context {K V : Type} `{EqDecision K}.
Implicit Types (k : K) (v : V) (d : list (K * V)).

Lemma get_Some_elem k v d : get k d = Some v -> (k, v) ∈ d.
Proof.
  induction d as [|[k' v'] r IH]; simpl; [done|].
  destruct (decide (k = k')) as [->|].
  - intros [= ->]. left.
  - intros ?. right. auto.
Qed.

Lemma get_Some_key k v d : get k d = Some v -> k ∈ keys d.
Proof.
  intros Hg. apply get_Some_elem in Hg.
  unfold keys. apply list_elem_of_fmap. by exists (k, v).
Qed.

Lemma get_None_key k d : get k d = None <-> k ∉ keys d.
Proof.
  induction d as [|[k' v'] r IH]; simpl.
  - split; [intros _ Hin; inversion Hin | done].
  - destruct (decide (k = k')) as [->|Hne].
    + split; [done | intros Hn; exfalso; apply Hn; left].
    + rewrite IH, not_elem_of_cons. tauto.
Qed.

Lemma elem_get k v d : wf d -> (k, v) ∈ d -> get k d = Some v.
Proof.
  unfold wf. induction d as [|[k' v'] r IH]; simpl; intros Hnd Hin.
  - inversion Hin.
  - apply NoDup_cons in Hnd as [Hnotin Hnd].
    apply elem_of_cons in Hin as [[= -> ->]|Hin].
    + by rewrite decide_True.
    + destruct (decide (k = k')) as [->|]; [|by apply IH].
      exfalso. apply Hnotin. apply list_elem_of_fmap. by exists (k', v).
Qed.

Lemma get_set_eq k v d : get k (set k v d) = Some v.
Proof.
  induction d as [|[k' v'] r IH]; simpl.
  - by rewrite decide_True.
  - destruct (decide (k = k')); simpl.
    + by rewrite decide_True.
    + by rewrite decide_False.
Qed.

Lemma get_set_ne k k' v d : k <> k' -> get k' (set k v d) = get k' d.
Proof.
  intros Hne. induction d as [|[k0 v0] r IH]; simpl.
  - by rewrite decide_False.
  - destruct (decide (k = k0)) as [->|]; simpl.
    + by rewrite !decide_False.
    + destruct (decide (k' = k0)); [done | apply IH].
Qed.

Lemma get_del_ne k k' d : k <> k' -> get k' (del k d) = get k' d.
Proof.
  intros Hne. induction d as [|[k0 v0] r IH]; simpl; [done|].
  destruct (decide (k = k0)) as [->|]; simpl.
  - by rewrite decide_False.
  - destruct (decide (k' = k0)); [done | apply IH].
Qed.

Lemma get_del_eq k d : wf d -> get k (del k d) = None.
Proof.
  unfold wf. induction d as [|[k0 v0] r IH]; simpl; intros Hnd; [done|].
  apply NoDup_cons in Hnd as [Hnotin Hnd].
  destruct (decide (k = k0)) as [->|]; simpl.
  - by apply get_None_key.
  - rewrite decide_False by done. by apply IH.
Qed.

Lemma keys_set_absent k v d : get k d = None -> keys (set k v d) = keys d ++ [k].
Proof.
  induction d as [|[k0 v0] r IH]; simpl; [done|].
  destruct (decide (k = k0)); [done|]. intros Hg. simpl. by rewrite IH.
Qed.

Lemma keys_set_present k v d : contains k d = true -> keys (set k v d) = keys d.
Proof.
  unfold contains.
  induction d as [|[k0 v0] r IH]; simpl; [done|].
  destruct (decide (k = k0)) as [->|]; [done|]. intros Hg. simpl. by rewrite IH.
Qed.

Lemma len_set_absent k v d : get k d = None -> len (set k v d) = S (len d).
Proof.
  intros Hg. unfold len.
  rewrite <- (length_map fst (set k v d)), <- (length_map fst d).
  fold (keys (set k v d)). rewrite keys_set_absent by done.
  rewrite length_app. simpl. unfold keys. lia.
Qed.

Lemma len_set_present k v d : contains k d = true -> len (set k v d) = len d.
Proof.
  intros Hg. unfold len.
  rewrite <- (length_map fst (set k v d)), <- (length_map fst d).
  fold (keys (set k v d)). by rewrite keys_set_present.
Qed.

Lemma len_set_le k v d : (len (set k v d) <= S (len d))%nat.
Proof.
  destruct (get k d) eqn:E.
  - rewrite len_set_present; [lia|]. unfold contains. by rewrite E.
  - rewrite len_set_absent by done. lia.
Qed.

Lemma len_del_present k d : k ∈ keys d -> S (len (del k d)) = len d.
Proof.
  unfold len, keys. induction d as [|[k0 v0] r IH]; simpl; intros Hin.
  - inversion Hin.
  - destruct (decide (k = k0)) as [->|Hne]; [done|]. simpl.
    apply elem_of_cons in Hin as [?|Hin]; [done|]. by rewrite IH.
Qed.

Lemma keys_del_elem k k' d : k' ∈ keys (del k d) -> k' ∈ keys d.
Proof.
  unfold keys. induction d as [|[k0 v0] r IH]; simpl; [done|].
  destruct (decide (k = k0)); simpl.
  - intros ?. by right.
  - rewrite !elem_of_cons. intros [?|?]; [by left | right; auto].
Qed.

Lemma len_del_le k d : (len (del k d) <= len d)%nat.
Proof.
  unfold len. induction d as [|[k0 v0] r IH]; simpl; [done|].
  destruct (decide (k = k0)); simpl; lia.
Qed.

Lemma wf_nil : wf (@nil (K * V)).
Proof. constructor. Qed.

Lemma wf_del k d : wf d -> wf (del k d).
Proof.
  unfold wf. induction d as [|[k0 v0] r IH]; simpl; [done|].
  intros Hnd. apply NoDup_cons in Hnd as [Hnotin Hnd].
  destruct (decide (k = k0)); simpl; [done|].
  apply NoDup_cons. split; [|by apply IH].
  intros Hin. apply Hnotin. by apply keys_del_elem in Hin.
Qed.

Lemma wf_set k v d : wf d -> wf (set k v d).
Proof.
  unfold wf. intros Hnd. destruct (get k d) eqn:E.
  - rewrite keys_set_present; [done|]. unfold contains. by rewrite E.
  - rewrite keys_set_absent by done.
    apply NoDup_app. split; [done|]. split; [|apply NoDup_singleton].
    intros x Hx Hx'. apply list_elem_of_singleton in Hx' as ->.
    by apply get_None_key in E.
Qed.

End Facts.
End PyDictFacts.

(** ** The TTS audio cache *)
Module PiperFacts.
Import Piper.

Lemma min_from_minimal best rest :
  exists e, e ∈ best :: rest /\ e.1 = min_from best rest /\
            forall e', e' ∈ best :: rest -> e.2.2 <= e'.2.2.
Proof.
  revert best. induction rest as [|x r IH]; intros best; simpl.
  - exists best. split; [left|]. split; [done|].
    intros e' He'. apply list_elem_of_singleton in He' as ->. apply Qle_refl.
  - destruct (Qltb x.2.2 best.2.2) eqn:E.
    + destruct (IH x) as (e & Hin & Hk & Hmin).
      exists e. split; [by right|]. split; [done|].
      intros e' He'. apply elem_of_cons in He' as [->|He']; [|by apply Hmin].
      apply Qltb_lt in E. apply Qle_trans with x.2.2; [|by apply Qlt_le_weak].
      apply Hmin. left.
    + destruct (IH best) as (e & Hin & Hk & Hmin).
      exists e. split.
      { apply elem_of_cons in Hin as [->|Hin]; [left | right; by right]. }
      split; [done|].
      intros e' He'. apply elem_of_cons in He' as [->|He'].
      { apply Hmin. left. }
      apply elem_of_cons in He' as [->|He'].
      * apply Qltb_ge in E. apply Qle_trans with best.2.2; [|done].
        apply Hmin. left.
      * apply Hmin. by right.
Qed.

(** On a non-empty cache [min] finds an entry of the cache that no
    entry is older than. *)
Lemma oldest_key_spec (c : cache) :
  PyDict.wf c -> c <> [] ->
  exists oldest old_data old_ts,
    oldest_key c = Some oldest /\
    PyDict.get oldest c = Some (old_data, old_ts) /\
    forall k d t, PyDict.get k c = Some (d, t) -> old_ts <= t.
Proof.
  intros Hwf Hne. destruct c as [|b r]; [done|].
  change (oldest_key (b :: r)) with (Some (min_from b r)).
  destruct (min_from_minimal b r) as ([k [d t]] & Hin & Hk & Hmin).
  simpl in Hk. exists k, d, t. split; [by rewrite Hk|]. split.
  - by apply PyDictFacts.elem_get.
  - intros k' d' t' Hg. apply PyDictFacts.get_Some_elem in Hg.
    exact (Hmin _ Hg).
Qed.

Lemma full_cache_nonempty (c : cache) :
  (CACHE_MAX_SIZE <= PyDict.len c)%nat -> c <> [].
Proof. intros H ->. unfold CACHE_MAX_SIZE in H. simpl in H. lia. Qed.

(** [_add_to_cache] never raises: [min] is only called on a cache of at
    least [CACHE_MAX_SIZE] entries. *)
Lemma add_to_cache_total now key data (c : cache) :
  is_Some (_add_to_cache now key data c).
Proof.
  unfold _add_to_cache. case_decide as Hfull; [|done].
  apply full_cache_nonempty in Hfull.
  destruct c; [done|]. done.
Qed.

(** A hit is an entry younger than the TTL, and leaves the cache alone. *)
Lemma get_from_cache_hit_frame_aux now key (c : cache) data :
  (_get_from_cache now key c).1 = Some data ->
  (_get_from_cache now key c).2 = c /\
  exists T, PyDict.get key c = Some (data, T) /\ now - T < 300.
Proof.
  unfold _get_from_cache, CACHE_TTL_SECONDS.
  destruct (PyDict.get key c) as [[d T]|]; [|done].
  destruct (Qltb (now - T) 300) eqn:E; [|done].
  simpl. intros [= ->]. split; [done|]. exists T. split; [done|]. by apply Qltb_lt.
Qed.

Lemma oldest_key_in (c : cache) k : oldest_key c = Some k -> k ∈ PyDict.keys c.
Proof.
  destruct c as [|b r]; [done|]. cbn [oldest_key]. intros [= <-].
  destruct (min_from_minimal b r) as (e & Hin & Hk & _).
  rewrite <- Hk. unfold PyDict.keys. apply list_elem_of_fmap. by exists e.
Qed.

(** The size bound is kept by every insertion. *)
Lemma add_to_cache_bounded now key data (c c' : cache) :
  (PyDict.len c <= CACHE_MAX_SIZE)%nat ->
  _add_to_cache now key data c = Some c' ->
  (PyDict.len c' <= CACHE_MAX_SIZE)%nat.
Proof.
  unfold _add_to_cache. intros Hle. case_decide as Hfull.
  - destruct (oldest_key c) as [oldest|] eqn:E; [|done]. intros [= <-].
    pose proof (PyDictFacts.len_del_present _ _ (oldest_key_in _ _ E)) as Hdel.
    pose proof (PyDictFacts.len_set_le key (data, now) (PyDict.del oldest c)) as Hset.
    lia.
  - intros [= <-].
    pose proof (PyDictFacts.len_set_le key (data, now) c) as Hset. lia.
Qed.

(** Every [/tts] request leaves the cache within [CACHE_MAX_SIZE]. *)
Lemma do_POST_bounded piper t_get t_put path payload (s : server) :
  (PyDict.len (audio_cache s) <= CACHE_MAX_SIZE)%nat ->
  (PyDict.len (audio_cache (do_POST piper t_get t_put path payload s).2)
     <= CACHE_MAX_SIZE)%nat.
Proof.
  intros Hinv. unfold do_POST.
  case_bool_decide; [|done]. destruct payload as [b|]; [|done].
  case_bool_decide; [done|].
  assert (Hget : (PyDict.len (_get_from_cache t_get (cache_key (args_of b))
                                (audio_cache s)).2 <= CACHE_MAX_SIZE)%nat).
  { unfold _get_from_cache.
    destruct (PyDict.get (cache_key (args_of b)) (audio_cache s)) as [[d T]|]; [|done].
    destruct (Qltb (t_get - T) CACHE_TTL_SECONDS); [done|]. simpl.
    pose proof (PyDictFacts.len_del_le (cache_key (args_of b)) (audio_cache s)). lia. }
  destruct (_get_from_cache t_get (cache_key (args_of b)) (audio_cache s))
    as [[[|x wav]|] c1]; simpl in Hget; [|done|].
  all: destruct (piper (piper_calls s) (args_of b)) as [audio_data| |]; [|done..].
  all: destruct (_add_to_cache t_put (cache_key (args_of b)) audio_data c1)
         as [c2|] eqn:Hadd; [|done].
  all: simpl; by eapply add_to_cache_bounded.
Qed.

End PiperFacts.

(** ** Claims about the TTS audio cache *)
Module PiperClaims.
Import Piper PiperFacts.

(** Concrete caches for the instances below: [n] phrases stored at the
    times 0, 1, ..., n-1. *)
Definition phrase (i : nat) : string :=
  String (Ascii.ascii_of_nat (48 + i)) "_0_0.75_0.667_0.8".

Definition stored (n : nat) : cache :=
  (fun i => (phrase i, ([Byte.x52; Byte.x49], inject_Z (Z.of_nat i)))) <$> seq 0 n.

Lemma stored_wf n : (n <= 60)%nat -> PyDict.wf (stored n).
Proof.
  intros Hn. unfold PyDict.wf, PyDict.keys, stored.
  rewrite <- list_fmap_compose.
  apply NoDup_fmap_2_strong; [|apply NoDup_seq].
  intros i j Hi Hj. apply elem_of_seq in Hi, Hj.
  change ((fst ∘ _) i) with (phrase i). change ((fst ∘ _) j) with (phrase j).
  unfold phrase. intros Heq.
  assert (Hinj : Ascii.nat_of_ascii (Ascii.ascii_of_nat (48 + i))
                 = Ascii.nat_of_ascii (Ascii.ascii_of_nat (48 + j))).
  { f_equal. congruence. }
  rewrite !Ascii.nat_ascii_embedding in Hinj by lia. lia.
Qed.

(** C3. For the TTS audio cache (TTL 300 s): when the entry for [key] was
    stored at time [T] and is still in the cache, a get at time [now]
    returns the stored audio as a hit if [now - T < 300]; if
    [now - T >= 300] it returns a miss and deletes the entry, so the key
    is no longer in the cache. *)
Theorem get_from_cache_ttl now key (c : cache) data T :
  PyDict.wf c ->
  PyDict.get key c = Some (data, T) ->
  (now - T < 300 -> _get_from_cache now key c = (Some data, c)) /\
  (300 <= now - T ->
     _get_from_cache now key c = (None, PyDict.del key c) /\
     PyDict.get key (_get_from_cache now key c).2 = None).
Proof.
  intros Hwf Hg. unfold _get_from_cache. rewrite Hg. split.
  - intros Hlt. apply Qltb_lt in Hlt.
    unfold CACHE_TTL_SECONDS. by rewrite Hlt.
  - intros Hge. apply Qltb_ge in Hge.
    unfold CACHE_TTL_SECONDS. rewrite Hge. split; [done|].
    by apply PyDictFacts.get_del_eq.
Qed.

Lemma get_from_cache_ttl_witness :
  _get_from_cache 302 (phrase 3) (stored 5)
    = (Some [Byte.x52; Byte.x49], stored 5) /\
  _get_from_cache 303 (phrase 3) (stored 5)
    = (None, PyDict.del (phrase 3) (stored 5)) /\
  PyDict.get (phrase 3) (_get_from_cache 303 (phrase 3) (stored 5)).2 = None.
Proof.
  assert (Hwf : PyDict.wf (stored 5)) by (apply stored_wf; lia).
  assert (Hg : PyDict.get (phrase 3) (stored 5)
               = Some ([Byte.x52; Byte.x49], inject_Z 3)) by reflexivity.
  split.
  - apply (get_from_cache_ttl 302 (phrase 3) (stored 5) _ _ Hwf Hg).
    reflexivity.
  - apply (get_from_cache_ttl 303 (phrase 3) (stored 5) _ _ Hwf Hg).
    discriminate.
Defined.

(** C8. A get on the TTS audio cache returns a hit exactly when the key
    is present with an entry younger than 300 s, and a hit leaves the
    cache exactly as it was: no timestamp, value or position of any
    entry changes, so a read refreshes neither TTL nor recency. *)
Theorem get_from_cache_hit_frame now key (c : cache) data :
  ((_get_from_cache now key c).1 = Some data <->
     exists T, PyDict.get key c = Some (data, T) /\ now - T < 300) /\
  ((_get_from_cache now key c).1 = Some data ->
     (_get_from_cache now key c).2 = c).
Proof.
  unfold _get_from_cache, CACHE_TTL_SECONDS.
  destruct (PyDict.get key c) as [[d T]|] eqn:Hg.
  - destruct (Qltb (now - T) 300) eqn:E; simpl.
    + apply Qltb_lt in E. split; [|done]. split.
      * intros [= ->]. by exists T.
      * intros (T' & [= -> ->] & _). done.
    + split; [|done]. split; [done|].
      intros (T' & [= -> ->] & Hlt). apply Qltb_lt in Hlt. congruence.
  - simpl. split; [|done]. split; [done|]. intros (T' & ? & _). done.
Qed.

Lemma get_from_cache_hit_frame_witness :
  (_get_from_cache 302 (phrase 3) (stored 5)).2 = stored 5.
Proof.
  apply (get_from_cache_hit_frame 302 (phrase 3) (stored 5) [Byte.x52; Byte.x49]).
  reflexivity.
Defined.

(** C6. When the TTS audio cache holds at least 50 entries, an insertion
    first deletes exactly one entry, one whose stored timestamp no other
    entry's timestamp is below, and then stores the new entry: afterwards
    the new key holds the new audio stamped with the clock reading, the
    deleted key is gone unless it is the new key itself, and every other
    key holds what it held.  When the cache holds fewer than 50 entries,
    the insertion only stores the new entry: every key that was present
    stays present, and every key but the new one holds what it held. *)
Theorem add_to_cache_evicts_oldest now key data (c : cache) :
  PyDict.wf c ->
  ((CACHE_MAX_SIZE <= PyDict.len c)%nat ->
     exists oldest old_data old_ts c',
       _add_to_cache now key data c = Some c' /\
       PyDict.get oldest c = Some (old_data, old_ts) /\
       (forall k d t, PyDict.get k c = Some (d, t) -> old_ts <= t) /\
       S (PyDict.len (PyDict.del oldest c)) = PyDict.len c /\
       PyDict.get oldest (PyDict.del oldest c) = None /\
       (forall k, k <> oldest ->
                  PyDict.get k (PyDict.del oldest c) = PyDict.get k c) /\
       c' = PyDict.set key (data, now) (PyDict.del oldest c) /\
       PyDict.get key c' = Some (data, now) /\
       (oldest <> key -> PyDict.get oldest c' = None) /\
       (forall k, k <> key -> k <> oldest -> PyDict.get k c' = PyDict.get k c) /\
       PyDict.wf c' /\
       PyDict.len c'
         = (if PyDict.contains key (PyDict.del oldest c)
            then PyDict.len c - 1 else PyDict.len c)%nat) /\
  ((PyDict.len c < CACHE_MAX_SIZE)%nat ->
     exists c',
       _add_to_cache now key data c = Some c' /\
       c' = PyDict.set key (data, now) c /\
       PyDict.get key c' = Some (data, now) /\
       (forall k, k <> key -> PyDict.get k c' = PyDict.get k c) /\
       (forall k, k ∈ PyDict.keys c -> k ∈ PyDict.keys c') /\
       PyDict.wf c' /\
       PyDict.len c'
         = (if PyDict.contains key c then PyDict.len c else S (PyDict.len c))).
Proof.
  intros Hwf. split.
  - intros Hfull.
    destruct (oldest_key_spec c Hwf (full_cache_nonempty c Hfull))
      as (oldest & od & ot & Hold & Hg & Hmin).
    pose proof (PyDictFacts.len_del_present oldest c
                  ltac:(by eapply PyDictFacts.get_Some_key)) as Hdel.
    exists oldest, od, ot, (PyDict.set key (data, now) (PyDict.del oldest c)).
    split; [unfold _add_to_cache; rewrite decide_True by done; by rewrite Hold|].
    split; [done|]. split; [done|]. split; [done|].
    split; [by apply PyDictFacts.get_del_eq|].
    split; [intros k Hk; by apply PyDictFacts.get_del_ne|].
    split; [done|]. split; [apply PyDictFacts.get_set_eq|].
    split.
    { intros Hne. rewrite PyDictFacts.get_set_ne by done.
      by apply PyDictFacts.get_del_eq. }
    split.
    { intros k Hk Hk'. rewrite PyDictFacts.get_set_ne by done.
      by apply PyDictFacts.get_del_ne. }
    split; [by apply PyDictFacts.wf_set, PyDictFacts.wf_del|].
    destruct (PyDict.contains key (PyDict.del oldest c)) eqn:E.
    + rewrite PyDictFacts.len_set_present by done. lia.
    + rewrite PyDictFacts.len_set_absent; [lia|].
      unfold PyDict.contains in E. by destruct (PyDict.get key (PyDict.del oldest c)).
  - intros Hlt. exists (PyDict.set key (data, now) c).
    split; [unfold _add_to_cache; by rewrite decide_False by lia|].
    split; [done|]. split; [apply PyDictFacts.get_set_eq|].
    split; [intros k Hk; by apply PyDictFacts.get_set_ne|].
    split.
    { intros k Hk. destruct (PyDict.get key c) eqn:E.
      * rewrite PyDictFacts.keys_set_present; [done|].
        unfold PyDict.contains. by rewrite E.
      * rewrite PyDictFacts.keys_set_absent by done.
        apply elem_of_app. by left. }
    split; [by apply PyDictFacts.wf_set|].
    destruct (PyDict.contains key c) eqn:E.
    + by rewrite PyDictFacts.len_set_present.
    + rewrite PyDictFacts.len_set_absent; [done|].
      unfold PyDict.contains in E. by destruct (PyDict.get key c).
Qed.

(** What the cache [stored n] holds. *)
Lemma stored_get n k d t :
  PyDict.get k (stored n) = Some (d, t) ->
  exists i, (i < n)%nat /\ k = phrase i /\ t = inject_Z (Z.of_nat i).
Proof.
  intros Hg. apply PyDictFacts.get_Some_elem in Hg.
  apply list_elem_of_fmap in Hg as (i & [= -> _ ->] & Hi).
  apply elem_of_seq in Hi. exists i. split; [lia | done].
Qed.

Lemma add_to_cache_evicts_oldest_witness :
  (exists c',
     _add_to_cache 1000 "again_0_0.75_0.667_0.8" [Byte.x52] (stored 50) = Some c' /\
     PyDict.get "again_0_0.75_0.667_0.8" c' = Some ([Byte.x52], 1000) /\
     PyDict.get (phrase 0) c' = None /\
     PyDict.get (phrase 1) c' = Some ([Byte.x52; Byte.x49], 1) /\
     PyDict.len c' = 50%nat) /\
  (exists c',
     _add_to_cache 1000 "again_0_0.75_0.667_0.8" [Byte.x52] (stored 49) = Some c' /\
     PyDict.get "again_0_0.75_0.667_0.8" c' = Some ([Byte.x52], 1000) /\
     PyDict.get (phrase 0) c' = Some ([Byte.x52; Byte.x49], 0) /\
     PyDict.len c' = 50%nat).
Proof.
  split.
  - destruct (proj1 (add_to_cache_evicts_oldest 1000 "again_0_0.75_0.667_0.8" [Byte.x52]
                       (stored 50) ltac:(apply stored_wf; lia)))
      as (oldest & od & ot & c' & Hadd & Hold & Hmin & _ & _ & _ & _ & Hnew & Hgone
          & Hkept & _ & Hlen).
    { vm_compute. lia. }
    assert (oldest = phrase 0) as ->.
    { apply stored_get in Hold as (i & _ & -> & ->).
      specialize (Hmin (phrase 0) [Byte.x52; Byte.x49] 0 eq_refl).
      unfold Qle in Hmin. simpl in Hmin. f_equal. lia. }
    exists c'. split; [done|]. split; [done|].
    split; [by apply Hgone|].
    split; [by rewrite Hkept|].
    rewrite Hlen. reflexivity.
  - destruct (proj2 (add_to_cache_evicts_oldest 1000 "again_0_0.75_0.667_0.8" [Byte.x52]
                       (stored 49) ltac:(apply stored_wf; lia)))
      as (c' & Hadd & _ & Hnew & Hkept & _ & _ & Hlen).
    { vm_compute. lia. }
    exists c'. split; [done|]. split; [done|].
    split; [by rewrite Hkept|].
    rewrite Hlen. reflexivity.
Defined.

(** *** Replaying a [/tts] request *)

Lemma server_eta (s : server) :
  {| audio_cache := audio_cache s; piper_calls := piper_calls s |} = s.
Proof. by destruct s. Qed.

Definition tts_path (path : string) : Prop := path = "/tts" \/ path = "/synthesize".

(** A request whose key holds non-empty audio younger than the TTL is
    answered from the cache; Piper is not run and nothing changes. *)
Lemma do_POST_hit piper t_get t_put path b (s : server) wav T :
  tts_path path ->
  a_text (args_of b) <> "" ->
  PyDict.get (cache_key (args_of b)) (audio_cache s) = Some (wav, T) ->
  wav <> [] ->
  t_get - T < 300 ->
  do_POST piper t_get t_put path (Some b) s = (_send_audio wav, s).
Proof.
  intros Hpath Htext Hg Hwav Hyoung. unfold do_POST.
  rewrite bool_decide_eq_true_2 by done.
  rewrite bool_decide_eq_false_2 by done.
  unfold _get_from_cache. rewrite Hg.
  apply Qltb_lt in Hyoung. unfold CACHE_TTL_SECONDS. rewrite Hyoung.
  destruct wav as [|x wav]; [done|]. by rewrite server_eta.
Qed.

(** A request answered 200 leaves the bytes it returned under its key:
    stored earlier when it was served from the cache, and stamped with the
    second clock reading when Piper produced them. *)
Lemma do_POST_ok_stored piper t_get t_put path b (s0 s1 : server) r1 :
  do_POST piper t_get t_put path (Some b) s0 = (r1, s1) ->
  status r1 = 200%nat ->
  tts_path path /\ a_text (args_of b) <> "" /\ r1 = _send_audio (body r1) /\
  exists T,
    PyDict.get (cache_key (args_of b)) (audio_cache s1) = Some (body r1, T) /\
    (piper_calls s1 = S (piper_calls s0) -> T = t_put) /\
    (piper_calls s1 = piper_calls s0 -> s1 = s0 /\ t_get - T < 300).
Proof.
  unfold do_POST. case_bool_decide as Hpath; [|by intros [= <- <-]].
  case_bool_decide as Htext; [by intros [= <- <-]|].
  pose proof (get_from_cache_hit_frame_aux t_get (cache_key (args_of b)) (audio_cache s0))
    as Hget.
  destruct (_get_from_cache t_get (cache_key (args_of b)) (audio_cache s0))
    as [[[|x wav]|] c1].
  1,3: destruct (piper (piper_calls s0) (args_of b)) as [audio_data| |];
       [|by intros [= <- <-]..];
       (destruct (_add_to_cache t_put (cache_key (args_of b)) audio_data c1)
          as [c2|] eqn:Hadd; [|by intros [= <- <-]]);
       intros [= <- <-] _; cbn;
       (split; [done|]); (split; [done|]); (split; [done|]);
       exists t_put; (split; [|split; [done | lia]]);
       unfold _add_to_cache in Hadd;
       (case_decide; [destruct (oldest_key c1); [|done]|]);
       injection Hadd as <-; apply PyDictFacts.get_set_eq.
  intros [= <- <-] _. cbn.
  destruct (Hget (x :: wav) eq_refl) as (Hc & T & Hg & Hyoung).
  simpl in Hc. subst c1.
  split; [done|]. split; [done|]. split; [done|].
  exists T. split; [done|]. split; [lia|]. intros _. by rewrite server_eta.
Qed.

End PiperClaims.

(** ** The image-embedding cache of the vision server *)
Module VisionClaims.
Import Vision.

(** A request for [img] with caching switched on. *)
Definition cached_request (img : string) : Q * option image_body :=
  (0, Some {| image := Some img; use_cache := Some true |}).

Section Growth.
Variable md5_hex : string -> string.
Variable clip : nat -> string -> option vec.

(** A first-time image with caching on adds one entry, whatever the
    size of the cache. *)
Lemma embed_image_fresh img s :
  img <> "" ->
  is_Some (clip (clip_calls s) img) ->
  cache s !! get_cache_key md5_hex img = None ->
  let s' := (embed_image md5_hex clip 0 (cached_request img).2 s).2 in
  size (cache s') = S (size (cache s)) /\
  dom (cache s') = {[ get_cache_key md5_hex img ]} ∪ dom (cache s).
Proof.
  intros Hne [emb Hclip] Hfresh. unfold embed_image, cached_request. simpl.
  rewrite bool_decide_eq_false_2 by done.
  rewrite Hfresh, Hclip. simpl. split.
  - by apply map_size_insert_None.
  - apply dom_insert_L.
Qed.

Lemma serve_fresh_images images : forall s,
  Forall (fun img => img <> "") images ->
  (forall n img, img ∈ images -> is_Some (clip n img)) ->
  NoDup (get_cache_key md5_hex <$> images) ->
  (forall img, img ∈ images -> get_cache_key md5_hex img ∉ dom (cache s)) ->
  size (cache (serve md5_hex clip (cached_request <$> images) s))
    = (size (cache s) + length images)%nat.
Proof.
  induction images as [|img rest IH]; intros s Hne Hclip Hnd Hfresh.
  - simpl. lia.
  - apply Forall_cons in Hne as [Hne1 Hne].
    rewrite fmap_cons in Hnd. apply NoDup_cons in Hnd as [Hnotin Hnd].
    assert (Hnone : cache s !! get_cache_key md5_hex img = None).
    { apply not_elem_of_dom. apply Hfresh. left. }
    destruct (embed_image_fresh img s Hne1 (Hclip _ img ltac:(left)) Hnone)
      as [Hsize Hdom].
    rewrite fmap_cons. cbn [serve cached_request].
    change (Some {| image := Some img; use_cache := Some true |})
      with (cached_request img).2.
    rewrite IH.
    + rewrite Hsize. simpl. lia.
    + done.
    + intros n i Hi. apply Hclip. by right.
    + done.
    + intros i Hi. rewrite Hdom. apply not_elem_of_union. split.
      * apply not_elem_of_singleton. intros Heq. apply Hnotin.
        rewrite <- Heq. apply list_elem_of_fmap. by exists i.
      * apply Hfresh. by right.
Qed.
End Growth.

(** C1, on the vision cache. Serving the images of a list with pairwise
    distinct cache keys, starting from an empty cache and with caching
    on, leaves one entry per image: once the list is longer than
    [CACHE_SIZE] = 1000 the cache holds more than [CACHE_SIZE] entries.
    Nothing in the handler consults [CACHE_SIZE]. *)
Theorem vision_cache_exceeds_CACHE_SIZE md5_hex clip (images : list string) s0 :
  cache s0 = ∅ ->
  Forall (fun img => img <> "") images ->
  (forall n img, img ∈ images -> is_Some (clip n img)) ->
  NoDup (get_cache_key md5_hex <$> images) ->
  (CACHE_SIZE < Z.of_nat (length images))%Z ->
  size (cache (serve md5_hex clip (cached_request <$> images) s0)) = length images /\
  (CACHE_SIZE < Z.of_nat (size (cache (serve md5_hex clip (cached_request <$> images) s0))))%Z.
Proof.
  intros Hempty Hne Hclip Hnd Hlong.
  assert (Hsize : size (cache (serve md5_hex clip (cached_request <$> images) s0))
                  = length images).
  { rewrite serve_fresh_images; try done.
    - rewrite Hempty, map_size_empty. lia.
    - intros img _. rewrite Hempty, dom_empty_L. apply not_elem_of_empty. }
  split; [done|]. by rewrite Hsize.
Qed.

Lemma substring_short (s : string) (n : nat) :
  (String.length s <= n)%nat -> String.substring 0 n s = s.
Proof.
  revert n. induction s as [|c s IH]; intros n Hn.
  - by destruct n.
  - destruct n as [|n]; simpl in *; [lia|]. rewrite IH; [done | lia].
Qed.

(** 1001 images, told apart by a decimal number in their data. *)
Definition numbered_images : list string :=
  (fun i : nat => pretty i) <$> seq 0 1001.

Lemma numbered_images_keys : NoDup (get_cache_key id <$> numbered_images).
Proof.
  assert (Hshort : Forall (fun img => String.length img <= 1000)%nat numbered_images)
    by compute_done.
  assert (Hid : get_cache_key id <$> numbered_images = numbered_images).
  { induction Hshort as [|img rest Himg _ IH]; [done|].
    rewrite fmap_cons, IH. f_equal.
    unfold get_cache_key. simpl id. by apply substring_short. }
  rewrite Hid. unfold numbered_images.
  apply NoDup_fmap_2; [apply _ | apply NoDup_seq].
Qed.

Lemma vision_cache_exceeds_CACHE_SIZE_witness :
  size (cache (serve id (fun _ _ => Some [1; 0])
                 (cached_request <$> numbered_images)
                 {| cache := ∅; clip_calls := 0 |})) = 1001%nat.
Proof.
  refine (proj1 (vision_cache_exceeds_CACHE_SIZE id (fun _ _ => Some [1; 0])
                   numbered_images {| cache := ∅; clip_calls := 0 |} _ _ _ _ _)).
  - reflexivity.
  - compute_done.
  - intros n img _. by eexists.
  - exact numbered_images_keys.
  - vm_compute. reflexivity.
Defined.

End VisionClaims.

(** ** The text-embedding cache *)
Module EmbeddingFacts.
Import Embedding.

(** Deleting the first [n] keys of a dictionary drops its first [n]
    entries. *)
Lemma del_first_keys (c : cache) n :
  foldl (fun c key => PyDict.del key c) c (take n (PyDict.keys c)) = drop n c.
Proof.
  revert c. induction n as [|n IH]; intros c; [done|].
  destruct c as [|[k v] r]; [done|].
  simpl. rewrite decide_True by done. apply IH.
Qed.

Lemma manage_cache_drop (c : cache) :
  manage_cache c =
    if decide (CACHE_SIZE_LIMIT < Z.of_nat (PyDict.len c))%Z
    then drop (Z.to_nat (CACHE_SIZE_LIMIT / 5)) c else c.
Proof.
  unfold manage_cache. case_decide; [|done]. apply del_first_keys.
Qed.

Lemma manage_cache_small (c : cache) :
  (Z.of_nat (PyDict.len c) <= CACHE_SIZE_LIMIT)%Z -> manage_cache c = c.
Proof. intros H. unfold manage_cache. by rewrite decide_False by lia. Qed.

Lemma manage_cache_len (c : cache) :
  (Z.of_nat (PyDict.len c) <= CACHE_SIZE_LIMIT + CACHE_SIZE_LIMIT / 5)%Z ->
  (Z.of_nat (PyDict.len (manage_cache c)) <= CACHE_SIZE_LIMIT)%Z.
Proof.
  intros H. rewrite manage_cache_drop. case_decide as Hbig; [|lia].
  unfold PyDict.len in *. rewrite length_drop.
  change (CACHE_SIZE_LIMIT / 5)%Z with 2000%Z in *.
  unfold CACHE_SIZE_LIMIT in *. lia.
Qed.

(** A key outside the first [n] keys is looked up in what is left as in
    the whole dictionary. *)
Lemma get_drop (c : cache) n k :
  k ∉ take n (PyDict.keys c) -> PyDict.get k (drop n c) = PyDict.get k c.
Proof.
  revert c. induction n as [|n IH]; intros c Hk; [done|].
  destruct c as [|[k' v] r]; [done|].
  simpl in Hk. apply not_elem_of_cons in Hk as [Hne Hk].
  simpl. rewrite decide_False by done. by apply IH.
Qed.

Lemma keys_drop (c : cache) n : PyDict.keys (drop n c) = drop n (PyDict.keys c).
Proof.
  revert c. induction n as [|n IH]; intros [|[k v] c]; try done. apply IH.
Qed.

Section Server.
Variable md5_hex : str -> string.

Lemma store_len (c : cache) ts vs :
  (PyDict.len (store md5_hex c ts vs).1 <= PyDict.len c + length ts)%nat.
Proof.
  revert c vs. induction ts as [|t ts IH]; intros c vs; [simpl; lia|].
  destruct vs as [|v vs]; [simpl; lia|]. simpl.
  destruct (get_cache_key md5_hex t) as [k|]; [|simpl; lia].
  etrans; [apply IH|].
  pose proof (PyDictFacts.len_set_le k v c). lia.
Qed.

Lemma scan_cache_to_encode_len (c : cache) texts : forall i cr te ti,
  scan_cache md5_hex c i texts = Some (cr, te, ti) ->
  (length te <= length texts)%nat.
Proof.
  induction texts as [|t ts IH]; intros i cr te ti; simpl.
  - by intros [= <- <- <-].
  - destruct (get_cache_key md5_hex t) as [k|]; [|done].
    destruct (scan_cache md5_hex c (S i) ts) as [[[cr' te'] ti']|] eqn:E; [|done].
    specialize (IH _ _ _ _ E).
    destruct (PyDict.get k c); intros [= <- <- <-]; simpl; lia.
Qed.

(** The texts left to encode have a cache key, so the store loop, which
    computes the keys again, does not raise. *)
Lemma scan_cache_keys (c : cache) texts : forall i cr te ti,
  scan_cache md5_hex c i texts = Some (cr, te, ti) ->
  Forall (fun t => is_Some (get_cache_key md5_hex t)) te.
Proof.
  induction texts as [|t ts IH]; intros i cr te ti; simpl.
  - intros [= <- <- <-]. constructor.
  - destruct (get_cache_key md5_hex t) as [k|] eqn:Hk; [|done].
    destruct (scan_cache md5_hex c (S i) ts) as [[[cr' te'] ti']|] eqn:E; [|done].
    specialize (IH _ _ _ _ E).
    destruct (PyDict.get k c); intros [= <- <- <-]; [done|].
    constructor; [by rewrite Hk | done].
Qed.

Lemma store_no_raise (c : cache) te vs :
  Forall (fun t => is_Some (get_cache_key md5_hex t)) te ->
  (store md5_hex c te vs).2 = false.
Proof.
  intros H. revert c vs. induction H as [|t te [k Hk] _ IH]; intros c vs; [done|].
  destruct vs as [|v vs]; [done|]. simpl. rewrite Hk. apply IH.
Qed.

Lemma row_length m n batch i : length (row m n batch i) = 384%nat.
Proof. unfold row. by rewrite length_map, length_seq. Qed.

Lemma run_encoder_length m n batch vs :
  run_encoder m n batch = Some vs -> length vs = length batch.
Proof.
  unfold run_encoder. destruct (raises m n batch); [done|].
  intros [= <-]. by rewrite length_map, length_seq.
Qed.

(** The encoder returns rows of 384 floats. *)
Lemma run_encoder_width m n batch vs :
  run_encoder m n batch = Some vs -> Forall (fun v => length v = 384%nat) vs.
Proof.
  unfold run_encoder. destruct (raises m n batch); [done|].
  intros [= <-]. apply Forall_forall. intros v Hv.
  apply list_elem_of_fmap in Hv as (i & -> & _). apply row_length.
Qed.

Definition texts_of (arg : texts_arg) : list str :=
  match arg with Single t => [t] | Many ts => ts end.

(** [encode_texts] keeps the cache within its limit as long as one call
    brings at most [CACHE_SIZE_LIMIT // 5] texts. *)
Lemma encode_texts_bounded m arg use_cache s :
  (Z.of_nat (length (texts_of arg)) <= CACHE_SIZE_LIMIT / 5)%Z ->
  (Z.of_nat (PyDict.len (embedding_cache s)) <= CACHE_SIZE_LIMIT)%Z ->
  (Z.of_nat (PyDict.len (embedding_cache (encode_texts md5_hex m arg use_cache s).2))
     <= CACHE_SIZE_LIMIT)%Z.
Proof.
  intros Hbatch Hinv. unfold encode_texts.
  set (texts := texts_of arg) in *.
  assert (Hsplit : (match arg with
                    | Single t => ([t], true)
                    | Many ts => (ts, false)
                    end).1 = texts) by (by destruct arg).
  destruct (match arg with
            | Single t => ([t], true)
            | Many ts => (ts, false)
            end) as [texts' single_input]. simpl in Hsplit. subst texts'.
  destruct use_cache.
  - destruct (scan_cache md5_hex (embedding_cache s) 0 texts)
      as [[[cr te] ti]|] eqn:Hscan; [|done].
    pose proof (scan_cache_keys _ _ _ _ _ _ Hscan) as Hkeys.
    apply scan_cache_to_encode_len in Hscan.
    destruct te as [|t te]; [done|].
    destruct (run_encoder m (encoder_calls s) (t :: te)) as [vs|]; [|done].
    pose proof (store_len (embedding_cache s) (t :: te) vs) as Hstore.
    pose proof (store_no_raise (embedding_cache s) (t :: te) vs Hkeys) as Hraise.
    destruct (store md5_hex (embedding_cache s) (t :: te) vs) as [c raised].
    cbn [fst snd] in *. subst raised. cbn [snd embedding_cache].
    apply manage_cache_len. lia.
  - destruct texts as [|t te]; [done|].
    destruct (run_encoder m (encoder_calls s) (t :: te)); done.
Qed.

(** Every [/embed] request leaves the cache within its limit. *)
Lemma embed_bounded m start_time end_time body s :
  (Z.of_nat (PyDict.len (embedding_cache s)) <= CACHE_SIZE_LIMIT)%Z ->
  (Z.of_nat (PyDict.len (embedding_cache
     (embed md5_hex m start_time end_time body s).2)) <= CACHE_SIZE_LIMIT)%Z.
Proof.
  intros Hinv. unfold embed. destruct body as [| |data]; [done..|].
  assert (Hcall : forall arg uc ms,
             (Z.of_nat (length (texts_of arg)) <= CACHE_SIZE_LIMIT / 5)%Z ->
             (Z.of_nat (PyDict.len (embedding_cache
                (match encode_texts md5_hex m arg uc s with
                 | (Some (Arr2 rows), s') => (Embeddings rows 384 (length rows) ms uc, s')
                 | (Some (Arr1 r), s') => (Embeddings [r] 384 1 ms uc, s')
                 | (Some (Arr0 _), s') | (None, s') => (ServerError, s')
                 end).2)) <= CACHE_SIZE_LIMIT)%Z).
  { intros arg uc ms Hb.
    pose proof (encode_texts_bounded m arg uc s Hb Hinv) as H.
    destruct (encode_texts md5_hex m arg uc s) as [[[x|r|rows]|] s']; exact H. }
  destruct (texts data) as [t|ts|].
  - case_decide; [done|]. apply Hcall. by vm_compute.
  - case_decide as Hlen; [done|]. apply Hcall. simpl.
    rewrite length_map. change (CACHE_SIZE_LIMIT / 5)%Z with 2000%Z. lia.
  - done.
Qed.

End Server.
End EmbeddingFacts.

(** ** Replaying an [encode_texts] call *)
Module EmbeddingReplay.
Import Embedding EmbeddingFacts.

(** Every cached row has 384 floats, as every row the encoder returns
    has: this holds of the empty cache and is kept by each request. *)
Definition cached_rows_384 (c : cache) : Prop :=
  Forall (fun e => length e.2 = 384%nat) c.

Lemma cached_row_width (c : cache) k v :
  cached_rows_384 c -> PyDict.get k c = Some v -> length v = 384%nat.
Proof.
  intros Hc Hg. apply PyDictFacts.get_Some_elem in Hg.
  unfold cached_rows_384 in Hc. rewrite Forall_forall in Hc. exact (Hc _ Hg).
Qed.

(** Assignments of rows of 384 floats do not raise. *)
Definition fill_all (rows : list vec) (assignments : list (nat * vec)) : list vec :=
  foldl (fun rows a => <[a.1 := a.2]> rows) rows assignments.

Lemma fill_wide rows assignments :
  Forall (fun a => length a.2 = 384%nat) assignments ->
  fill rows assignments = Some (fill_all rows assignments).
Proof.
  intros H. revert rows. induction H as [|[i v] rest Hw _ IH]; intros rows; [done|].
  simpl in *. unfold assign_row. rewrite decide_True by done. simpl. apply IH.
Qed.

Lemma fill_insert_commute (rows : list vec) assignments i v :
  i ∉ assignments.*1 ->
  <[i := v]> (fill_all rows assignments) = fill_all (<[i := v]> rows) assignments.
Proof.
  unfold fill_all. revert rows. induction assignments as [|[j w] rest IH]; intros rows Hi.
  - done.
  - rewrite fmap_cons, not_elem_of_cons in Hi. destruct Hi as [Hne Hi]. simpl in Hne.
    simpl. rewrite IH by done. f_equal. by apply list_insert_insert_ne.
Qed.

Lemma np_array_wide (M : list vec) :
  M <> [] -> Forall (fun v => length v = 384%nat) M -> np_array M = Some (Arr2 M).
Proof.
  destruct M as [|r rest]; [done|]. intros _ H.
  apply Forall_cons in H as [Hr Hrest]. unfold np_array.
  replace (forallb _ rest) with true; [done|].
  symmetry. apply forallb_forall. intros r' Hin. apply Nat.eqb_eq.
  rewrite Forall_forall in Hrest. rewrite Hr. apply Hrest.
  by apply list_elem_of_In.
Qed.

Section Replay.
Variable md5_hex : str -> string.
Local Abbreviation key := (get_cache_key md5_hex).

(** The row a cache holds for a text. *)
Definition cached (c : cache) (t : str) : option vec :=
  key t ≫= fun k => PyDict.get k c.

Lemma cached_key (c : cache) t k : key t = Some k -> cached c t = PyDict.get k c.
Proof. unfold cached. by intros ->. Qed.

Lemma cached_Some (c : cache) t v :
  cached c t = Some v -> exists k, key t = Some k /\ PyDict.get k c = Some v.
Proof. unfold cached. destruct (key t) as [k|]; [|done]. simpl. eauto. Qed.

(** The rows of an answer: for each text the cached row if there is
    one, and otherwise the next row of the encoder's answer. *)
Fixpoint merge (c : cache) (ts : list str) (new : list vec) : list vec :=
  match ts with
  | [] => []
  | t :: r =>
      match cached c t with
      | Some v => v :: merge c r new
      | None =>
          match new with
          | v :: new' => v :: merge c r new'
          | [] => []
          end
      end
  end.

Lemma scan_cache_ext (c c' : cache) i ts :
  (forall t, t ∈ ts -> cached c' t = cached c t) ->
  scan_cache md5_hex c' i ts = scan_cache md5_hex c i ts.
Proof.
  revert i. induction ts as [|t r IH]; intros i Hext; [done|].
  simpl. destruct (key t) as [k|] eqn:Hk; [|done].
  rewrite IH by (intros; apply Hext; by right).
  specialize (Hext t ltac:(left)). rewrite !(cached_key _ _ _ Hk) in Hext.
  by rewrite Hext.
Qed.

Lemma scan_cache_shape (c : cache) ts : forall i cr te ti,
  scan_cache md5_hex c i ts = Some (cr, te, ti) ->
  length ti = length te /\
  Forall (fun j => i <= j)%nat ti /\
  Forall (fun t => cached c t = None) te /\
  Forall (fun a => exists k, PyDict.get k c = Some a.2) cr /\
  te `sublist_of` ts.
Proof.
  induction ts as [|t r IH]; intros i cr te ti.
  - intros [= <- <- <-]. repeat split; constructor.
  - simpl. destruct (key t) as [k|] eqn:Hk; [|done].
    destruct (scan_cache md5_hex c (S i) r) as [[[cr' te'] ti']|] eqn:E; [|done].
    destruct (IH _ _ _ _ E) as (Hlen & Hge & Hnone & Hcr & Hsub).
    destruct (PyDict.get k c) as [w|] eqn:Hg; intros [= <- <- <-].
    + split; [done|]. split.
      { eapply Forall_impl; [exact Hge | simpl; lia]. }
      split; [done|]. split; [|by apply sublist_cons].
      constructor; [by exists k | done].
    + split; [simpl; by rewrite Hlen|]. split; [|split; [|split]].
      * constructor; [lia|]. eapply Forall_impl; [exact Hge | simpl; lia].
      * constructor; [|done]. by rewrite (cached_key _ _ _ Hk).
      * done.
      * by apply sublist_skip.
Qed.

(** When every text is cached, the scan finds all of them. *)
Lemma scan_cache_all_cached (c : cache) ts vs : forall i,
  Forall2 (fun t v => cached c t = Some v) ts vs ->
  scan_cache md5_hex c i ts = Some (zip (seq i (length ts)) vs, [], []).
Proof.
  intros i H. revert i. induction H as [|t v ts vs Hg _ IH]; intros i; [done|].
  apply cached_Some in Hg as (k & Hk & Hg).
  simpl. by rewrite Hk, IH, Hg.
Qed.

(** And a scan that leaves nothing to encode found every text. *)
Lemma scan_cache_nothing_left (c : cache) ts : forall i cr ti,
  scan_cache md5_hex c i ts = Some (cr, [], ti) ->
  Forall2 (fun t v => cached c t = Some v) ts (merge c ts []) /\
  cr = zip (seq i (length ts)) (merge c ts []).
Proof.
  induction ts as [|t r IH]; intros i cr ti.
  - intros [= <- <-]. split; [constructor | done].
  - simpl. destruct (key t) as [k|] eqn:Hk; [|done].
    destruct (scan_cache md5_hex c (S i) r) as [[[cr' te'] ti']|] eqn:E; [|done].
    rewrite (cached_key _ _ _ Hk).
    destruct (PyDict.get k c) as [w|] eqn:Hg; [|done]. intros [= <- -> <-].
    destruct (IH _ _ _ E) as [Hall ->].
    split; [|done]. constructor; [|done]. by rewrite (cached_key _ _ _ Hk).
Qed.

Lemma rows_by_index_from (vs : list vec) : forall i,
  mapM (fun j => PyDict.get j (zip (seq i (length vs)) vs)) (seq i (length vs))
    = Some vs.
Proof.
  induction vs as [|v vs IH]; intros i; [done|].
  apply mapM_Some. simpl. constructor.
  - by rewrite decide_True.
  - specialize (IH (S i)). apply mapM_Some in IH.
    apply Forall2_same_length_lookup. split.
    { by rewrite length_seq. }
    intros n j w Hj Hw.
    eapply Forall2_lookup_lr in IH; [|exact Hj|exact Hw].
    apply lookup_seq in Hj as [-> _].
    rewrite decide_False by lia. exact IH.
Qed.

(** The rows assembled by [encode_texts] from the cached rows and the
    encoder's answer are those of [merge]. *)
Lemma fill_merge (c : cache) ts : forall i cr te ti new pre rest,
  scan_cache md5_hex c i ts = Some (cr, te, ti) ->
  length new = length te ->
  length pre = i ->
  length rest = length ts ->
  fill_all (fill_all (pre ++ rest) (zip ti new)) cr = pre ++ merge c ts new.
Proof.
  induction ts as [|t r IH]; intros i cr te ti new pre rest Hscan Hnew Hpre Hrest.
  - injection Hscan as <- <- <-. by destruct rest.
  - destruct rest as [|z rest]; [done|]. simpl in Hrest.
    simpl in Hscan. destruct (key t) as [k|] eqn:Hk; [|done].
    destruct (scan_cache md5_hex c (S i) r) as [[[cr' te'] ti']|] eqn:E; [|done].
    destruct (scan_cache_shape c r _ _ _ _ E) as (Hlen & Hge & _ & _ & _).
    assert (Hins : forall v, <[i := v]> (pre ++ z :: rest) = (pre ++ [v]) ++ rest).
    { intros v. rewrite <- Hpre.
      replace (length pre) with (length pre + 0)%nat by lia.
      rewrite insert_app_r. simpl. by rewrite <- app_assoc. }
    simpl. rewrite (cached_key _ _ _ Hk).
    destruct (PyDict.get k c) as [v|] eqn:Hg; injection Hscan as <- <- <-.
    + change (fill_all ?rows ((i, v) :: cr')) with (fill_all (<[i := v]> rows) cr').
      rewrite fill_insert_commute, Hins.
      * rewrite (IH (S i) cr' te' ti' new (pre ++ [v]) rest); try done.
        -- by rewrite <- app_assoc.
        -- rewrite length_app. simpl. lia.
        -- lia.
      * intros Hin. apply list_elem_of_fmap in Hin as ([j w] & -> & Hin).
        apply elem_of_zip_l in Hin. simpl in *.
        rewrite Forall_forall in Hge. specialize (Hge _ Hin). lia.
    + destruct new as [|v new]; [done|]. simpl in Hnew.
      cbn [zip_with].
      change (fill_all (pre ++ z :: rest) ((i, v) :: zip ti' new))
        with (fill_all (<[i := v]> (pre ++ z :: rest)) (zip ti' new)).
      rewrite Hins.
      rewrite (IH (S i) cr' te' ti' new (pre ++ [v]) rest); try done.
      -- by rewrite <- app_assoc.
      -- lia.
      -- rewrite length_app. simpl. lia.
      -- lia.
Qed.

Lemma merge_nothing_cached (c : cache) ts : forall i te ti new,
  scan_cache md5_hex c i ts = Some ([], te, ti) ->
  length new = length te ->
  merge c ts new = new.
Proof.
  induction ts as [|t r IH]; intros i te ti new Hscan Hnew.
  - injection Hscan as <- <-. by destruct new.
  - simpl in Hscan. destruct (key t) as [k|] eqn:Hk; [|done].
    destruct (scan_cache md5_hex c (S i) r) as [[[cr' te'] ti']|] eqn:E; [|done].
    simpl. rewrite (cached_key _ _ _ Hk).
    destruct (PyDict.get k c) as [v|]; [done|].
    injection Hscan as -> <- <-.
    destruct new as [|v new]; [done|]. simpl in Hnew.
    f_equal. eapply IH; [exact E | lia].
Qed.

Lemma merge_length (c : cache) ts : forall i cr te ti new,
  scan_cache md5_hex c i ts = Some (cr, te, ti) ->
  length new = length te ->
  length (merge c ts new) = length ts.
Proof.
  induction ts as [|t r IH]; intros i cr te ti new Hscan Hnew; [done|].
  simpl in Hscan. destruct (key t) as [k|] eqn:Hk; [|done].
  destruct (scan_cache md5_hex c (S i) r) as [[[cr' te'] ti']|] eqn:E; [|done].
  simpl. rewrite (cached_key _ _ _ Hk).
  destruct (PyDict.get k c) as [v|]; injection Hscan as <- <- <-.
  - simpl. f_equal. by eapply IH.
  - destruct new as [|v new]; [done|]. simpl in *. f_equal.
    eapply IH; [exact E | lia].
Qed.

Lemma merge_width (c : cache) ts : forall new,
  cached_rows_384 c ->
  Forall (fun v => length v = 384%nat) new ->
  Forall (fun v => length v = 384%nat) (merge c ts new).
Proof.
  induction ts as [|t r IH]; intros new Hc Hnew; [constructor|].
  simpl. destruct (cached c t) as [v|] eqn:Hg.
  - apply cached_Some in Hg as (k & _ & Hg).
    constructor; [by eapply cached_row_width | by apply IH].
  - destruct new as [|v new]; [constructor|].
    apply Forall_cons in Hnew as [Hv Hnew]. constructor; [done | by apply IH].
Qed.

(** Each row of [merge] is the cached row of its text, or the row the
    encoder returned for it. *)
Lemma merge_rows (c : cache) ts : forall i cr te ti new,
  scan_cache md5_hex c i ts = Some (cr, te, ti) ->
  length new = length te ->
  Forall2 (fun t v =>
             match cached c t with
             | Some w => v = w
             | None => (t, v) ∈ zip te new
             end) ts (merge c ts new).
Proof.
  induction ts as [|t r IH]; intros i cr te ti new Hscan Hnew; [constructor|].
  simpl in Hscan. destruct (key t) as [k|] eqn:Hk; [|done].
  destruct (scan_cache md5_hex c (S i) r) as [[[cr' te'] ti']|] eqn:E; [|done].
  simpl. rewrite (cached_key _ _ _ Hk).
  destruct (PyDict.get k c) as [w|] eqn:Hg; injection Hscan as <- <- <-.
  - constructor; [by rewrite (cached_key _ _ _ Hk), Hg|]. by eapply IH.
  - destruct new as [|v new]; [done|]. simpl in Hnew.
    constructor; [rewrite (cached_key _ _ _ Hk), Hg; left|].
    eapply Forall2_impl; [eapply IH; [exact E | lia]|].
    intros t' v' H. simpl in H. destruct (cached c t'); [done|].
    simpl. by right.
Qed.

(** Each row the encoder returned is the row of [merge] at the position
    of its text. *)
Lemma merge_new_row (c : cache) ts : forall i cr te ti new q t',
  scan_cache md5_hex c i ts = Some (cr, te, ti) ->
  length new = length te ->
  te !! q = Some t' ->
  exists j, ts !! j = Some t' /\ merge c ts new !! j = new !! q.
Proof.
  induction ts as [|t r IH]; intros i cr te ti new q t' Hscan Hnew Hq.
  - injection Hscan as <- <- <-. done.
  - simpl in Hscan. destruct (key t) as [k|] eqn:Hk; [|done].
    destruct (scan_cache md5_hex c (S i) r) as [[[cr' te'] ti']|] eqn:E; [|done].
    simpl. rewrite (cached_key _ _ _ Hk).
    destruct (PyDict.get k c) as [w|] eqn:Hg; injection Hscan as <- <- <-.
    + destruct (IH _ _ _ _ new q t' E Hnew Hq) as (j & Hj & Hm).
      by exists (S j).
    + destruct new as [|v new]; [done|]. simpl in Hnew.
      destruct q as [|q].
      * injection Hq as <-. by exists 0%nat.
      * simpl in Hq.
        destruct (IH _ _ _ _ new q t' E ltac:(lia) Hq) as (j & Hj & Hm).
        by exists (S j).
Qed.

Lemma store_get_other (c : cache) te new k :
  (forall t, t ∈ te -> key t <> Some k) ->
  PyDict.get k (store md5_hex c te new).1 = PyDict.get k c.
Proof.
  revert c new. induction te as [|t te IH]; intros c new Hk; [done|].
  destruct new as [|v new]; [done|]. simpl.
  destruct (key t) as [k'|] eqn:Hkt; [|done].
  rewrite IH by (intros; apply Hk; by right).
  apply PyDictFacts.get_set_ne. intros ->. by apply (Hk t ltac:(left)).
Qed.

(** After the store loop, the key of each encoded text holds a row the
    encoder returned for a text with that key. *)
Lemma store_get_in (c : cache) te : forall new p t k,
  length new = length te ->
  Forall (fun t => is_Some (key t)) te ->
  te !! p = Some t ->
  key t = Some k ->
  exists q t' v',
    te !! q = Some t' /\ key t' = Some k /\ new !! q = Some v' /\
    PyDict.get k (store md5_hex c te new).1 = Some v'.
Proof.
  revert c. induction te as [|t1 te IH]; intros c new p t k Hnew Hkeys Hp Hk; [done|].
  destruct new as [|v1 new]; [done|]. simpl in Hnew.
  apply Forall_cons in Hkeys as [[k1 Hk1] Hkeys].
  simpl. rewrite Hk1.
  destruct (decide (Exists (fun t' => key t' = Some k) te)) as [Hlater|Hlast].
  - apply Exists_exists in Hlater as (t' & Hin & Hk').
    apply list_elem_of_lookup in Hin as [p' Hp'].
    destruct (IH (PyDict.set k1 v1 c) new p' t' k ltac:(lia) Hkeys Hp' Hk')
      as (q & t'' & v' & Hq & Hkq & Hv & Hg).
    by exists (S q), t'', v'.
  - assert (Hnone : forall t', t' ∈ te -> key t' <> Some k).
    { intros t' Hin Hk'. apply Hlast. apply Exists_exists. by exists t'. }
    destruct p as [|p].
    + injection Hp as ->. assert (k1 = k) as -> by congruence.
      exists 0%nat, t, v1. repeat split; [done..|].
      rewrite store_get_other by done. apply PyDictFacts.get_set_eq.
    + simpl in Hp. exfalso. eapply Hnone; [|exact Hk].
      by eapply list_elem_of_lookup_2.
Qed.

(** The store loop changes rows in place and appends new keys. *)
Lemma store_keys (c : cache) te : forall new,
  exists extra, PyDict.keys (store md5_hex c te new).1 = PyDict.keys c ++ extra.
Proof.
  revert c. induction te as [|t te IH]; intros c new.
  - exists []. by rewrite app_nil_r.
  - destruct new as [|v new]; [exists []; by rewrite app_nil_r|].
    simpl. destruct (key t) as [k|]; [|exists []; by rewrite app_nil_r].
    destruct (IH (PyDict.set k v c) new) as [extra ->].
    destruct (PyDict.get k c) as [w|] eqn:Hg.
    + rewrite PyDictFacts.keys_set_present; [by exists extra|].
      unfold PyDict.contains. by rewrite Hg.
    + rewrite PyDictFacts.keys_set_absent by done.
      exists (k :: extra). by rewrite <- app_assoc.
Qed.

(** What [encode_texts] puts together on a miss. *)
Lemma combine_rows (c : cache) ts cr te ti new :
  scan_cache md5_hex c 0 ts = Some (cr, te, ti) ->
  length new = length te ->
  Forall (fun v => length v = 384%nat) new ->
  cached_rows_384 c ->
  match cr with
  | _ :: _ =>
      fill (replicate (length ts) (replicate 384 0)) (zip ti new)
        ≫= fun rows => fill rows cr
  | [] => Some new
  end = Some (merge c ts new).
Proof.
  intros Hscan Hnew Hwide Hc.
  destruct (scan_cache_shape c ts _ _ _ _ Hscan) as (Hlen & _ & _ & Hcr & _).
  destruct cr as [|x cr].
  - f_equal. symmetry. by eapply merge_nothing_cached.
  - rewrite fill_wide.
    2:{ apply Forall_forall. intros [j v] Hin. apply elem_of_zip_r in Hin.
        rewrite Forall_forall in Hwide. by apply Hwide. }
    cbn [mbind option_bind]. rewrite fill_wide.
    2:{ eapply Forall_impl; [exact Hcr|]. intros a [k Hg]. by eapply cached_row_width. }
    f_equal.
    apply (fill_merge c ts 0 (x :: cr) te ti new [] (replicate (length ts) (replicate 384 0)));
      try done.
    by rewrite length_replicate.
Qed.

Definition finish (single_input : bool) (embeddings : ndarray) : option ndarray :=
  if single_input then index0 embeddings else Some embeddings.

(** [encode_texts] once the argument is split into the list of texts
    and the [single_input] flag. *)
Definition encode_list (m : encoder) (texts : list str) (single_input : bool)
    (use_cache : bool) (s : server) : option ndarray * server :=
  match (if use_cache then scan_cache md5_hex (embedding_cache s) 0 texts
         else Some (@nil (nat * vec), texts, seq 0 (length texts))) with
  | None => (None, s)
  | Some (cached_results, texts_to_encode, text_indices) =>
      match texts_to_encode with
      | [] =>
          ((rows_by_index cached_results (length texts) ≫= np_array)
             ≫= finish single_input, s)
      | _ :: _ =>
          let calls := S (encoder_calls s) in
          match run_encoder m (encoder_calls s) texts_to_encode with
          | None =>
              (None, {| embedding_cache := embedding_cache s; encoder_calls := calls |})
          | Some new_embeddings =>
              if use_cache then
                match store md5_hex (embedding_cache s) texts_to_encode new_embeddings with
                | (c, true) =>
                    (None, {| embedding_cache := c; encoder_calls := calls |})
                | (c, false) =>
                    let embeddings :=
                      match cached_results with
                      | _ :: _ =>
                          fill (replicate (length texts) (replicate 384 0))
                               (zip text_indices new_embeddings)
                            ≫= fun rows => fill rows cached_results
                      | [] => Some new_embeddings
                      end in
                    (embeddings ≫= fun rows => finish single_input (Arr2 rows),
                     {| embedding_cache := manage_cache c; encoder_calls := calls |})
                end
              else
                (finish single_input (Arr2 new_embeddings),
                 {| embedding_cache := embedding_cache s; encoder_calls := calls |})
          end
      end
  end.

Definition is_single (arg : texts_arg) : bool :=
  match arg with Single _ => true | Many _ => false end.

Lemma encode_texts_list m arg use_cache s :
  encode_texts md5_hex m arg use_cache s
    = encode_list m (texts_of arg) (is_single arg) use_cache s.
Proof. by destruct arg. Qed.

(** A call all of whose texts are cached returns the cached rows; the
    encoder is not called and the state is unchanged. *)
Lemma encode_list_hit m ts single (s : server) vs :
  Forall2 (fun t v => cached (embedding_cache s) t = Some v) ts vs ->
  encode_list m ts single true s = (np_array vs ≫= finish single, s).
Proof.
  intros Hall. unfold encode_list.
  rewrite (scan_cache_all_cached _ _ vs) by done.
  unfold rows_by_index.
  rewrite (Forall2_length _ _ _ Hall), rows_by_index_from. done.
Qed.

(** What a successful call with caching on returns and leaves behind:
    the rows [M] of its answer, one per text, and, unless rows of texts
    with one key differ or the call pruned a key of its own, each row in
    the cache under the key of its text. *)
Lemma encode_list_first m ts single (s0 s1 : server) a :
  encode_list m ts single true s0 = (Some a, s1) ->
  cached_rows_384 (embedding_cache s0) ->
  (length ts <= 1000)%nat ->
  exists M,
    length M = length ts /\
    (np_array M ≫= finish single) = Some a /\
    ((forall i j ti tj, ts !! i = Some ti -> ts !! j = Some tj ->
        key ti = key tj -> M !! i = M !! j) ->
     ((PyDict.len (embedding_cache s1) < PyDict.len (embedding_cache s0))%nat ->
      forall t k, t ∈ ts -> key t = Some k ->
        k ∉ take 2000 (PyDict.keys (embedding_cache s0))) ->
     Forall2 (fun t v => cached (embedding_cache s1) t = Some v) ts M).
Proof.
  intros Hfirst Hc Hmax. unfold encode_list in Hfirst.
  destruct (scan_cache md5_hex (embedding_cache s0) 0 ts)
    as [[[cr te] ti]|] eqn:Hscan; [|done].
  destruct te as [|t0 te].
  - (* everything was cached already: the call changed nothing *)
    injection Hfirst as Hres <-.
    destruct (scan_cache_nothing_left _ _ _ _ _ Hscan) as [Hall ->].
    exists (merge (embedding_cache s0) ts []).
    pose proof (Forall2_length _ _ _ Hall) as Hlen.
    split; [done|]. split; [|done].
    unfold rows_by_index in Hres.
    by rewrite Hlen, rows_by_index_from in Hres.
  - destruct (run_encoder m (encoder_calls s0) (t0 :: te)) as [new|] eqn:Hrun;
      [|done].
    pose proof (run_encoder_width _ _ _ _ Hrun) as Hwide.
    apply run_encoder_length in Hrun.
    pose proof (scan_cache_keys _ _ _ _ _ _ _ Hscan) as Hkeys.
    pose proof (store_no_raise md5_hex (embedding_cache s0) (t0 :: te) new Hkeys) as Hraise.
    pose proof (store_len md5_hex (embedding_cache s0) (t0 :: te) new) as Hstlen.
    destruct (store_keys (embedding_cache s0) (t0 :: te) new) as [extra Hextra].
    pose proof (store_get_other (embedding_cache s0) (t0 :: te) new) as Hother.
    pose proof (store_get_in (embedding_cache s0) (t0 :: te) new) as Hin.
    destruct (store md5_hex (embedding_cache s0) (t0 :: te) new) as [c_st raised].
    cbn [fst snd] in *. subst raised.
    rewrite (combine_rows _ _ _ _ _ _ Hscan Hrun Hwide Hc) in Hfirst.
    injection Hfirst as Hres <-. cbn [embedding_cache].
    set (M := merge (embedding_cache s0) ts new) in *.
    pose proof (merge_length _ _ _ _ _ _ _ Hscan Hrun) as HMlen. fold M in HMlen.
    destruct (scan_cache_shape _ _ _ _ _ _ Hscan) as (Hlen & _ & Hnone & _ & Hsub).
    pose proof (sublist_length _ _ Hsub) as Hsublen. simpl in Hsublen.
    exists M. split; [done|]. split.
    { rewrite np_array_wide; [done| |by apply merge_width].
      intros HM. rewrite HM in HMlen. simpl in HMlen. lia. }
    intros Hdup Hprune.
    (* after the store loop *)
    assert (Hst : Forall2 (fun t v => cached c_st t = Some v) ts M).
    { apply Forall2_same_length_lookup. split; [done|].
      intros i t v Ht Hv.
      pose proof (merge_rows _ _ _ _ _ _ _ Hscan Hrun) as Hrows. fold M in Hrows.
      eapply Forall2_lookup_lr in Hrows; [|exact Ht|exact Hv]. cbn beta in Hrows.
      destruct (cached (embedding_cache s0) t) as [w|] eqn:Hg.
      - subst v. apply cached_Some in Hg as (k & Hk & Hg).
        rewrite (cached_key _ _ _ Hk), Hother; [done|].
        intros t' Hin' Hk'. rewrite Forall_forall in Hnone.
        specialize (Hnone _ Hin'). rewrite (cached_key _ _ _ Hk') in Hnone. congruence.
      - apply elem_of_zip_l in Hrows. apply list_elem_of_lookup in Hrows as [p Hp].
        rewrite Forall_forall in Hkeys.
        destruct (Hkeys t ltac:(by eapply list_elem_of_lookup_2)) as [k Hk].
        destruct (Hin p t k Hrun ltac:(by apply Forall_forall) Hp Hk)
          as (q & t' & v' & Hq & Hk' & Hv' & Hget).
        destruct (merge_new_row _ _ _ _ _ _ new q t' Hscan Hrun Hq) as (j & Hj & Hm).
        fold M in Hm.
        rewrite (cached_key _ _ _ Hk), Hget. rewrite <- Hv', <- Hm, <- Hv.
        symmetry. apply (Hdup i j t t'); congruence. }
    (* after [manage_cache] *)
    rewrite manage_cache_drop in *. case_decide as Hbig; [|done].
    change (CACHE_SIZE_LIMIT / 5)%Z with 2000%Z in *.
    change (Z.to_nat 2000) with 2000%nat in *. unfold CACHE_SIZE_LIMIT in Hbig.
    assert (Hold : (2000 <= length (PyDict.keys (embedding_cache s0)))%nat).
    { unfold PyDict.keys. rewrite length_map. unfold PyDict.len in *. simpl in *. lia. }
    assert (Hshrunk : (PyDict.len (drop 2000 c_st) < PyDict.len (embedding_cache s0))%nat).
    { unfold PyDict.len in *. rewrite length_drop. simpl in *. lia. }
    specialize (Hprune Hshrunk).
    apply Forall2_same_length_lookup. split; [by eapply Forall2_length|].
    intros i t v Ht Hv.
    eapply Forall2_lookup_lr in Hst; [|exact Ht|exact Hv]. simpl in Hst.
    apply cached_Some in Hst as (k & Hk & Hg).
    rewrite (cached_key _ _ _ Hk), get_drop; [done|].
    rewrite Hextra, take_app_le by done.
    eapply Hprune; [|done]. by eapply list_elem_of_lookup_2.
Qed.
End Replay.

(** The texts a validated [/embed] body hands to [encode_texts]. *)
Definition validated_texts (data : embed_body) : list str :=
  match texts data with
  | TStr t => [t]
  | TList ts => take (Z.to_nat 10000) <$> ts
  | TOther => []
  end.

(** The response [embed] builds from what [encode_texts] returns. *)
Definition answer (enc : option ndarray * server) (ms : Q) (uc : bool)
  : response * server :=
  match enc with
  | (Some (Arr2 rows), s') => (Embeddings rows 384 (length rows) ms uc, s')
  | (Some (Arr1 r), s') => (Embeddings [r] 384 1 ms uc, s')
  | (Some (Arr0 _), s') | (None, s') => (ServerError, s')
  end.

(** A body that was answered 200 passed validation, and is handled the
    same way whenever it comes back. *)
Lemma embed_valid md5_hex m t0 t1 data (s s' : server) r :
  embed md5_hex m t0 t1 (Json data) s = (r, s') ->
  status r = 200%nat ->
  exists single,
    (single = true -> length (validated_texts data) = 1%nat) /\
    (length (validated_texts data) <= 1000)%nat /\
    forall m' t2 t3 s2,
      embed md5_hex m' t2 t3 (Json data) s2
      = answer (encode_list md5_hex m' (validated_texts data) single
                  (default true (use_cache_field data)) s2)
               (round2 ((t3 - t2) * 1000)) (default true (use_cache_field data)).
Proof.
  unfold embed, validated_texts. destruct (texts data) as [t|ts|].
  - case_decide; [by intros [= <- _]|]. intros _ _.
    exists true. split; [done|]. split; [simpl; lia|].
    intros m' t2 t3 s2. by rewrite encode_texts_list.
  - case_decide; [by intros [= <- _]|]. intros _ _.
    exists false. split; [done|]. split; [rewrite length_fmap; lia|].
    intros m' t2 t3 s2. by rewrite encode_texts_list.
  - by intros [= <- _].
Qed.

(** With at least one text the rows of the response are the rows [M] of
    the answer of [encode_texts]. *)
Lemma answer_rows (M : list vec) single a (s s' : server) ms uc rows dim cnt ms' uc' :
  (np_array M ≫= finish single) = Some a ->
  (single = true -> length M = 1%nat) ->
  M <> [] ->
  answer (Some a, s) ms uc = (Embeddings rows dim cnt ms' uc', s') ->
  rows = M.
Proof.
  intros Hnp Hsingle HM. destruct M as [|r rest]; [done|].
  unfold np_array in Hnp. destruct (forallb _ rest); [|done].
  cbn [mbind option_bind] in Hnp. destruct single.
  - specialize (Hsingle eq_refl). destruct rest; [|done].
    injection Hnp as <-. by intros [= <- _ _ _ _ _].
  - injection Hnp as <-. by intros [= <- _ _ _ _ _].
Qed.

(** What an [/embed] request answered 200 with caching on leaves in the
    cache, and what a replay returns. *)
Lemma embed_replay md5_hex m t0 t1 data (s0 s1 : server) rows dim cnt ms :
  cached_rows_384 (embedding_cache s0) ->
  default true (use_cache_field data) = true ->
  embed md5_hex m t0 t1 (Json data) s0 = (Embeddings rows dim cnt ms true, s1) ->
  (forall i j ti tj,
     validated_texts data !! i = Some ti -> validated_texts data !! j = Some tj ->
     get_cache_key md5_hex ti = get_cache_key md5_hex tj -> rows !! i = rows !! j) ->
  ((PyDict.len (embedding_cache s1) < PyDict.len (embedding_cache s0))%nat ->
   forall t k, t ∈ validated_texts data -> get_cache_key md5_hex t = Some k ->
     k ∉ take 2000 (PyDict.keys (embedding_cache s0))) ->
  (forall i t v,
     validated_texts data !! i = Some t -> rows !! i = Some v ->
     exists k, get_cache_key md5_hex t = Some k /\
               PyDict.get k (embedding_cache s1) = Some v) /\
  forall m' t2 t3 (s : server),
    (forall t k, t ∈ validated_texts data -> get_cache_key md5_hex t = Some k ->
       PyDict.get k (embedding_cache s) = PyDict.get k (embedding_cache s1)) ->
    embed md5_hex m' t2 t3 (Json data) s
      = (Embeddings rows dim cnt (round2 ((t3 - t2) * 1000)) true, s).
Proof.
  intros Hc Huc Hfirst Hdup Hprune.
  destruct (embed_valid _ _ _ _ _ _ _ _ Hfirst eq_refl)
    as (single & Hsingle & Hmax & Heq).
  rewrite Heq, Huc in Hfirst.
  set (ts := validated_texts data) in *.
  destruct (encode_list md5_hex m ts single true s0) as [[a|] s1'] eqn:Hcall; [|done].
  assert (s1' = s1) as -> by (destruct a; by injection Hfirst).
  destruct (encode_list_first md5_hex m ts single s0 s1 a Hcall Hc Hmax)
    as (M & HMlen & Hnp & Hleft).
  assert (Hrows : ts <> [] -> rows = M).
  { intros Hne. eapply answer_rows; [exact Hnp | | | exact Hfirst].
    - intros Hs. rewrite HMlen. by apply Hsingle.
    - intros ->. by destruct ts. }
  assert (Hall : Forall2 (fun t v => cached md5_hex (embedding_cache s1) t = Some v) ts M).
  { apply Hleft; [|done].
    intros i j ti tj Hi Hj Hk. rewrite <- Hrows; [by eapply Hdup|].
    intros Hts. by rewrite Hts in Hi. }
  split.
  - intros i t v Ht Hv. rewrite Hrows in Hv by (intros Hts; by rewrite Hts in Ht).
    eapply Forall2_lookup_lr in Hall; [|exact Ht|exact Hv].
    by apply cached_Some in Hall.
  - intros m' t2 t3 s Hsame. rewrite Heq, Huc.
    assert (Hall' : Forall2 (fun t v => cached md5_hex (embedding_cache s) t = Some v) ts M).
    { apply Forall2_same_length_lookup. split; [by eapply Forall2_length|].
      intros i t v Ht Hv.
      eapply Forall2_lookup_lr in Hall; [|exact Ht|exact Hv]. cbn beta in Hall.
      apply cached_Some in Hall as (k & Hk & Hg).
      rewrite (cached_key _ _ _ _ Hk), (Hsame t k); [done| |done].
      by eapply list_elem_of_lookup_2. }
    rewrite (encode_list_hit md5_hex m' ts single s M Hall'), Hnp.
    destruct a as [x|r|rows']; [done| |]; by injection Hfirst as <- <- <- _.
Qed.

(** Rows of 384 floats are all a request ever caches. *)
Lemma set_rows_384 (c : cache) k v :
  cached_rows_384 c -> length v = 384%nat -> cached_rows_384 (PyDict.set k v c).
Proof.
  unfold cached_rows_384. intros Hc Hv.
  induction c as [|[k' v'] c IH]; simpl.
  - by constructor.
  - apply Forall_cons in Hc as [Hv' Hc]. case_decide.
    + by constructor.
    + constructor; [done | by apply IH].
Qed.

Lemma store_rows_384 md5_hex (c : cache) te : forall new,
  cached_rows_384 c -> Forall (fun v => length v = 384%nat) new ->
  cached_rows_384 (store md5_hex c te new).1.
Proof.
  revert c. induction te as [|t te IH]; intros c new Hc Hnew; [done|].
  destruct new as [|v new]; [done|]. apply Forall_cons in Hnew as [Hv Hnew].
  simpl. destruct (get_cache_key md5_hex t) as [k|]; [|done].
  apply IH; [by apply set_rows_384 | done].
Qed.

Lemma embed_keeps_rows_384 md5_hex m t0 t1 body (s : server) :
  cached_rows_384 (embedding_cache s) ->
  cached_rows_384 (embedding_cache (embed md5_hex m t0 t1 body s).2).
Proof.
  intros Hc.
  assert (Hlist : forall ts single uc,
            cached_rows_384 (embedding_cache (encode_list md5_hex m ts single uc s).2)).
  { intros ts single uc. unfold encode_list.
    destruct (if uc then _ else _) as [[[cr te] ti]|]; [|done].
    destruct te as [|t te]; [done|].
    destruct (run_encoder m (encoder_calls s) (t :: te)) as [new|] eqn:Hrun; [|done].
    apply run_encoder_width in Hrun.
    destruct uc; [|done].
    pose proof (store_rows_384 md5_hex _ (t :: te) new Hc Hrun) as Hst.
    destruct (store md5_hex (embedding_cache s) (t :: te) new) as [c [|]]; [done|].
    cbn [fst snd embedding_cache] in *. rewrite manage_cache_drop.
    case_decide; [|done]. by apply Forall_drop. }
  unfold embed. destruct body as [| |data]; [done..|].
  destruct (texts data) as [t|ts|]; [| |done].
  - case_decide; [done|]. rewrite encode_texts_list.
    specialize (Hlist (texts_of (Single t)) (is_single (Single t))
                  (default true (use_cache_field data))).
    by destruct (encode_list _ _ _ _ _ _) as [[[x|r|rows]|] s'].
  - case_decide; [done|]. rewrite encode_texts_list.
    specialize (Hlist (texts_of (Many (map (take (Z.to_nat 10000)) ts)))
                  (is_single (Many (map (take (Z.to_nat 10000)) ts)))
                  (default true (use_cache_field data))).
    by destruct (encode_list _ _ _ _ _ _) as [[[x|r|rows]|] s'].
Qed.

(** A call that finds a text missing runs the encoder once. *)
Lemma encode_list_miss md5_hex m ts single (s : server) cr t te ti :
  scan_cache md5_hex (embedding_cache s) 0 ts = Some (cr, t :: te, ti) ->
  encoder_calls (encode_list md5_hex m ts single true s).2 = S (encoder_calls s).
Proof.
  intros Hscan. unfold encode_list. rewrite Hscan.
  destruct (run_encoder m (encoder_calls s) (t :: te)) as [new|]; [|done].
  by destruct (store md5_hex (embedding_cache s) (t :: te) new) as [c [|]].
Qed.

(** Pruning can remove what a request has just been served from.  The
    cache is full and its oldest key is that of the text [a]; a request
    for [a] and a new text [b] is answered from the cache for [a] and by
    the encoder for [b]; storing [b] makes [manage_cache] delete the 2000
    oldest keys, the key of [a] among them, so the same request issued
    again runs the encoder a second time. *)
Lemma replay_after_pruning md5_hex m m' t0 t1 t2 t3 (a b : str) ka kb va rest n :
  let c0 : cache := (ka, va) :: rest in
  let data := {| texts := TList [a; b]; use_cache_field := None |} in
  let first := embed md5_hex m t0 t1 (Json data)
                 {| embedding_cache := c0; encoder_calls := n |} in
  get_cache_key md5_hex (take (Z.to_nat 10000) a) = Some ka ->
  get_cache_key md5_hex (take (Z.to_nat 10000) b) = Some kb ->
  PyDict.wf c0 ->
  kb ∉ PyDict.keys c0 ->
  PyDict.len c0 = Z.to_nat 10000 ->
  cached_rows_384 c0 ->
  raises m n [take (Z.to_nat 10000) b] = false ->
  first.1 = Embeddings [va; row m n [take (Z.to_nat 10000) b] 0] 384 2
              (round2 ((t1 - t0) * 1000)) true /\
  encoder_calls first.2 = S n /\
  PyDict.len (embedding_cache first.2) = Z.to_nat 8001 /\
  encoder_calls (embed md5_hex m' t2 t3 (Json data) first.2).2 = S (S n).
Proof.
  intros c0 data first Hka Hkb Hwf Hnew Hfull Hrows Hrun.
  set (a' := take (Z.to_nat 10000) a) in *.
  set (b' := take (Z.to_nat 10000) b) in *.
  set (r := row m n [b'] 0).
  assert (Hga : PyDict.get ka c0 = Some va).
  { unfold c0. simpl. by rewrite decide_True. }
  assert (Hhead : PyDict.keys c0 = ka :: PyDict.keys rest) by done.
  clearbody c0.
  assert (Hgb : PyDict.get kb c0 = None) by (by apply PyDictFacts.get_None_key).
  assert (Hscan : scan_cache md5_hex c0 0 [a'; b'] = Some ([(0%nat, va)], [b'], [1%nat])).
  { cbn [scan_cache]. by rewrite Hka, Hkb, Hga, Hgb. }
  assert (Hfirst : first = (Embeddings [va; r] 384 2 (round2 ((t1 - t0) * 1000)) true,
                            {| embedding_cache := drop 2000 (PyDict.set kb r c0);
                               encoder_calls := S n |})).
  { unfold first, embed, data. cbn [texts use_cache_field default from_option id].
    rewrite decide_False by (simpl; lia).
    rewrite encode_texts_list.
    change (texts_of (Many (map (take (Z.to_nat 10000)) [a; b]))) with [a'; b'].
    unfold encode_list. cbn [embedding_cache encoder_calls is_single].
    rewrite Hscan. unfold run_encoder. rewrite Hrun.
    change (map (row m n [b']) (seq 0 (length [b']))) with [r].
    cbn [store]. rewrite Hkb.
    rewrite (combine_rows md5_hex c0 [a'; b'] _ _ _ [r] Hscan eq_refl).
    - cbn [merge]. rewrite (cached_key _ _ _ _ Hka), Hga, (cached_key _ _ _ _ Hkb), Hgb.
      cbn [mbind option_bind finish length]. rewrite manage_cache_drop.
      rewrite decide_True; [done|].
      rewrite (PyDictFacts.len_set_absent kb r c0 Hgb), Hfull. by vm_compute.
    - constructor; [apply row_length | constructor].
    - done. }
  rewrite Hfirst. cbn [fst snd encoder_calls embedding_cache].
  split; [done|]. split; [done|]. split.
  { pose proof (PyDictFacts.len_set_absent kb r c0 Hgb) as Hlen.
    unfold PyDict.len in *. rewrite length_drop, Hlen, Hfull. by vm_compute. }
  assert (Hgone : PyDict.get ka (drop 2000 (PyDict.set kb r c0)) = None).
  { apply PyDictFacts.get_None_key.
    rewrite keys_drop, PyDictFacts.keys_set_absent by done.
    assert (Hnd : NoDup (PyDict.keys c0 ++ [kb])).
    { apply NoDup_app. split; [done|]. split; [|apply NoDup_singleton].
      intros k Hk Hk'. apply list_elem_of_singleton in Hk' as ->. done. }
    rewrite Hhead in *. simpl in Hnd. apply NoDup_cons in Hnd as [Hnotin _].
    change (drop 2000 ((ka :: PyDict.keys rest) ++ [kb]))
      with (drop 1999 (PyDict.keys rest ++ [kb])).
    intros Hin. apply Hnotin. by eapply subseteq_drop. }
  destruct (embed_valid md5_hex m t0 t1 data
              {| embedding_cache := c0; encoder_calls := n |} _ _ Hfirst eq_refl)
    as (single & _ & _ & Heq).
  rewrite Heq.
  assert (Hstate : forall enc ms uc, (answer enc ms uc).2 = enc.2).
  { by intros [[[x|v|rows]|] s'] ms uc. }
  rewrite Hstate.
  change (validated_texts data) with [a'; b'].
  change (default true (use_cache_field data)) with true.
  assert (Hmiss : exists cr t te ti,
            scan_cache md5_hex (drop 2000 (PyDict.set kb r c0)) 0 [a'; b']
            = Some (cr, t :: te, ti)).
  { cbn [scan_cache]. rewrite Hka, Hkb, Hgone.
    destruct (PyDict.get kb (drop 2000 (PyDict.set kb r c0))); by repeat eexists. }
  destruct Hmiss as (cr & t & te & ti & Hmiss).
  exact (encode_list_miss md5_hex m' [a'; b'] single
           {| embedding_cache := drop 2000 (PyDict.set kb r c0); encoder_calls := S n |}
           cr t te ti Hmiss).
Qed.

End EmbeddingReplay.

(** ** Claims about the [/embed] handler *)
Module EmbeddingClaims.
Import Embedding EmbeddingFacts.

(** C7. A [POST /embed] whose [texts] field is a list of more than 1000
    texts is answered 400 ("Too many texts (max 1000)"), and the server
    state is what it was: the encoder has not been invoked and the
    embedding cache is unchanged. *)
Theorem embed_rejects_oversized_batch md5_hex m start_time end_time ts uc s :
  (1000 < length ts)%nat ->
  embed md5_hex m start_time end_time
        (Json {| texts := TList ts; use_cache_field := uc |}) s
    = (ClientError 400 "Too many texts (max 1000)", s) /\
  status (embed md5_hex m start_time end_time
            (Json {| texts := TList ts; use_cache_field := uc |}) s).1 = 400%nat /\
  encoder_calls (embed md5_hex m start_time end_time
                   (Json {| texts := TList ts; use_cache_field := uc |}) s).2
    = encoder_calls s /\
  embedding_cache (embed md5_hex m start_time end_time
                     (Json {| texts := TList ts; use_cache_field := uc |}) s).2
    = embedding_cache s.
Proof.
  intros Hlen.
  assert (Heq : embed md5_hex m start_time end_time
                  (Json {| texts := TList ts; use_cache_field := uc |}) s
                = (ClientError 400 "Too many texts (max 1000)", s)).
  { unfold embed. cbn [texts]. rewrite decide_True by lia. done. }
  rewrite Heq. done.
Qed.

(** An encoder that answers every text with the same row. *)
Definition constant_encoder : encoder :=
  {| raises := fun _ _ => false; entry := fun _ _ _ _ => 1 |}.

Lemma embed_rejects_oversized_batch_witness :
  embed plain_digest constant_encoder 0 1
        (Json {| texts := TList (replicate 1001 (code_points "hello"));
                 use_cache_field := None |})
        {| embedding_cache := []; encoder_calls := 0 |}
    = (ClientError 400 "Too many texts (max 1000)",
       {| embedding_cache := []; encoder_calls := 0 |}).
Proof.
  refine (proj1 (embed_rejects_oversized_batch plain_digest constant_encoder 0 1
                   (replicate 1001 (code_points "hello")) None
                   {| embedding_cache := []; encoder_calls := 0 |} _)).
  rewrite length_replicate. lia.
Defined.

End EmbeddingClaims.

(** ** The GPU monitor *)
Module GpuMonitorFacts.
Import GpuMonitor.

(** The category a lower-cased process name falls in, as the ordered
    pattern table is read: the first category with a pattern occurring in
    the name decides; ['python'] and no category at all both mean
    ['other']. *)
Inductive bucket := Llm | WhisperModel | EmbeddingModel | Other.

Global Instance bucket_eq_dec : EqDecision bucket.
Proof. solve_decision. Defined.

Definition patterns_of (model_type : string) : list string :=
  default [] (PyDict.get model_type model_patterns).

Definition hits (model_type : string) (name_lower : string) : bool :=
  any_pattern_in (patterns_of model_type) name_lower.

Definition bucket_of (name_lower : string) : bucket :=
  if hits "ollama" name_lower then Llm
  else if hits "whisper" name_lower then WhisperModel
  else if hits "embedding" name_lower then EmbeddingModel
  else Other.

Definition put (b : bucket) (proc : process) (d : detected) : detected :=
  match b with
  | Llm => append_llm proc d
  | WhisperModel => append_whisper proc d
  | EmbeddingModel => append_embedding proc d
  | Other => append_other proc d
  end.

(** One round of the outer loop of [detect_models] files the process in
    the bucket of its name. *)
Lemma assign_bucket name_lower proc d :
  (let '(d', assigned) := assign model_patterns name_lower proc d in
   if assigned then d' else append_other proc d')
  = put (bucket_of name_lower) proc d.
Proof.
  unfold bucket_of, hits.
  change (patterns_of "ollama") with ["ollama"; "llama"; "mistral"; "codellama"].
  change (patterns_of "whisper") with ["whisper"; "stt"].
  change (patterns_of "embedding") with ["embedding"; "sentence"].
  unfold model_patterns. cbn [assign].
  destruct (any_pattern_in ["ollama"; "llama"; "mistral"; "codellama"] name_lower);
    [reflexivity|].
  destruct (any_pattern_in ["whisper"; "stt"] name_lower); [reflexivity|].
  destruct (any_pattern_in ["embedding"; "sentence"] name_lower); [reflexivity|].
  destruct (any_pattern_in ["python.exe"; "python3"] name_lower); reflexivity.
Qed.

Definition in_bucket (lower : string -> string) (b : bucket) (proc : process) : Prop :=
  bucket_of (lower (name proc)) = b.

Global Instance in_bucket_dec lower b proc : Decision (in_bucket lower b proc).
Proof. unfold in_bucket. apply _. Defined.

Ltac bucket_cases lower proc :=
  let E := fresh "E" in
  destruct (bucket_of (lower (name proc))) eqn:E;
  repeat match goal with
  | |- context [decide (in_bucket lower ?b proc)] =>
      first [ rewrite (decide_True (P := in_bucket lower b proc))
                by (unfold in_bucket; congruence)
            | rewrite (decide_False (P := in_bucket lower b proc))
                by (unfold in_bucket; congruence) ]
  end.

Lemma detect_models_from lower procs : forall d,
  foldl (fun d proc =>
           let '(d', assigned) := assign model_patterns (lower (name proc)) proc d in
           if assigned then d' else append_other proc d') d procs
  = {| llm := llm d ++ filter (in_bucket lower Llm) procs;
       whisper := whisper d ++ filter (in_bucket lower WhisperModel) procs;
       embedding := embedding d ++ filter (in_bucket lower EmbeddingModel) procs;
       other := other d ++ filter (in_bucket lower Other) procs |}.
Proof.
  induction procs as [|proc rest IH]; intros d.
  - simpl. rewrite !app_nil_r. by destruct d.
  - cbn [foldl]. rewrite assign_bucket, IH.
    rewrite !filter_cons.
    bucket_cases lower proc; simpl; by rewrite <- ?app_assoc.
Qed.

Lemma filter_buckets_length lower (procs : list process) :
  (length (filter (in_bucket lower Llm) procs)
   + length (filter (in_bucket lower WhisperModel) procs)
   + length (filter (in_bucket lower EmbeddingModel) procs)
   + length (filter (in_bucket lower Other) procs))%nat = length procs.
Proof.
  induction procs as [|proc rest IH]; [done|].
  rewrite !filter_cons.
  bucket_cases lower proc; simpl; lia.
Qed.

Lemma elem_nonempty_default {A} (x n : A) (l : list A) :
  x ∈ l -> x ∈ match l with [] => [n] | _ => l end.
Proof. by destruct l; [intros ?%elem_of_nil|]. Qed.

End GpuMonitorFacts.

Module GpuMonitorClaims.
Import GpuMonitor GpuMonitorFacts.

(** [str.lower] on ASCII text, for the instances below. *)
Definition lower_char (c : Ascii.ascii) : Ascii.ascii :=
  let n := Ascii.nat_of_ascii c in
  if (65 <=? n)%nat && (n <=? 90)%nat then Ascii.ascii_of_nat (n + 32) else c.

Fixpoint lower_ascii (s : string) : string :=
  match s with
  | EmptyString => EmptyString
  | String c rest => String (lower_char c) (lower_ascii rest)
  end.

Definition proc_named (n : string) : process :=
  {| pid := 1; name := n; vram_mb := 512; proc_type := "compute" |}.

Definition sample_processes : list process :=
  [ proc_named "ollama.exe"; proc_named "python.exe";
    proc_named "Whisper-Server"; proc_named "python3 sentence_embed.py";
    proc_named "chrome.exe"; proc_named "CodeLlama-STT" ].

(** A snapshot with VRAM at 95 % and the GPU at 90 degrees. *)
Definition hot_stats : GpuStats :=
  {| timestamp := 0; gpu_name := "GTX 1080 Ti"; gpu_id := 0;
     vram_total := 11264; vram_used := 10700; vram_free := 564;
     vram_percent := 95; gpu_utilization := 99; memory_utilization := 90;
     temperature := 90; power_draw := 200; power_limit := 250;
     graphics_clock := 1607; memory_clock := 5005; sm_clock := 1607;
     processes := [] |}.

(** C10. [detect_models] partitions its input: each of the four lists is
    the sub-list (in input order) of the processes whose lower-cased name
    falls in that bucket, so every process is in exactly one list and the
    four lengths add up to the number of processes.  The bucket is that of
    the first category, in the order ollama, whisper, embedding, python,
    one of whose patterns occurs in the lower-cased name; a name that
    only matches python, or matches nothing, is filed under ['other']. *)
Theorem detect_models_partition (lower : string -> string) (procs : list process) :
  llm (detect_models lower procs) = filter (in_bucket lower Llm) procs /\
  whisper (detect_models lower procs) = filter (in_bucket lower WhisperModel) procs /\
  embedding (detect_models lower procs) = filter (in_bucket lower EmbeddingModel) procs /\
  other (detect_models lower procs) = filter (in_bucket lower Other) procs /\
  (length (llm (detect_models lower procs))
   + length (whisper (detect_models lower procs))
   + length (embedding (detect_models lower procs))
   + length (other (detect_models lower procs)))%nat = length procs /\
  (forall n,
     (hits "ollama" n = true -> bucket_of n = Llm) /\
     (hits "ollama" n = false -> hits "whisper" n = true ->
        bucket_of n = WhisperModel) /\
     (hits "ollama" n = false -> hits "whisper" n = false ->
        hits "embedding" n = true -> bucket_of n = EmbeddingModel) /\
     (hits "ollama" n = false -> hits "whisper" n = false ->
        hits "embedding" n = false -> bucket_of n = Other)).
Proof.
  unfold detect_models. rewrite detect_models_from. simpl.
  repeat (split; [done|]). split; [apply filter_buckets_length|].
  intros n. unfold bucket_of.
  repeat split; intros; repeat match goal with H : hits _ _ = _ |- _ => rewrite H; clear H end; done.
Qed.

Lemma detect_models_partition_witness :
  llm (detect_models lower_ascii sample_processes)
    = [proc_named "ollama.exe"; proc_named "CodeLlama-STT"] /\
  whisper (detect_models lower_ascii sample_processes)
    = [proc_named "Whisper-Server"] /\
  embedding (detect_models lower_ascii sample_processes)
    = [proc_named "python3 sentence_embed.py"] /\
  other (detect_models lower_ascii sample_processes)
    = [proc_named "python.exe"; proc_named "chrome.exe"] /\
  bucket_of "codellama-stt" = Llm /\
  bucket_of "whisper-server" = WhisperModel /\
  bucket_of "python3 sentence_embed.py" = EmbeddingModel /\
  bucket_of "python.exe" = Other.
Proof.
  destruct (detect_models_partition lower_ascii sample_processes)
    as (Hl & Hw & He & Ho & _ & Hfirst).
  split; [rewrite Hl; reflexivity|]. split; [rewrite Hw; reflexivity|].
  split; [rewrite He; reflexivity|]. split; [rewrite Ho; reflexivity|].
  split; [apply (Hfirst "codellama-stt"); reflexivity|].
  split; [apply (Hfirst "whisper-server"); reflexivity|].
  split; [apply (Hfirst "python3 sentence_embed.py"); reflexivity|].
  apply (Hfirst "python.exe"); reflexivity.
Defined.

(** C5. [get_recommendations]: a snapshot with [vram_percent > 90] gets
    the critical VRAM warning; one with [temperature > 85] gets the
    critical temperature warning; with both, both warnings are in the
    same result; and when [vram_percent <= 75], [temperature <= 80],
    [power_draw <= 0.9 * power_limit] and not ([gpu_utilization < 10] and
    [vram_used > 4000]), the result is the single "operating normally"
    entry. *)
Theorem get_recommendations_thresholds (stats : GpuStats) :
  (90 < vram_percent stats -> MSG_VRAM_CRITICAL ∈ get_recommendations stats) /\
  ((85 < temperature stats)%Z -> MSG_TEMP_CRITICAL ∈ get_recommendations stats) /\
  (90 < vram_percent stats -> (85 < temperature stats)%Z ->
     MSG_VRAM_CRITICAL ∈ get_recommendations stats /\
     MSG_TEMP_CRITICAL ∈ get_recommendations stats) /\
  (vram_percent stats <= 75 -> (temperature stats <= 80)%Z ->
     power_draw stats <= (9 # 10) * power_limit stats ->
     ~ ((gpu_utilization stats < 10)%Z /\ (4000 < vram_used stats)%Z) ->
     get_recommendations stats = [MSG_NORMAL]).
Proof.
  assert (Hvram : 90 < vram_percent stats -> MSG_VRAM_CRITICAL ∈ get_recommendations stats).
  { intros H%Qltb_lt. unfold get_recommendations. apply elem_nonempty_default.
    rewrite H. apply elem_of_app. left. left. }
  assert (Htemp : (85 < temperature stats)%Z ->
                  MSG_TEMP_CRITICAL ∈ get_recommendations stats).
  { intros H. unfold get_recommendations. apply elem_nonempty_default.
    destruct (decide (85 < temperature stats)%Z); [|done].
    apply elem_of_app. right. apply elem_of_app. left. left. }
  split; [done|]. split; [done|]. split; [by auto|].
  intros Hv Ht Hp Hidle. unfold get_recommendations.
  assert (Hv90 : Qltb 90 (vram_percent stats) = false).
  { apply Qltb_ge. apply Qle_trans with 75; [done | discriminate]. }
  assert (Hv75 : Qltb 75 (vram_percent stats) = false) by (by apply Qltb_ge).
  assert (Hpow : Qltb (power_limit stats * (9 # 10)) (power_draw stats) = false).
  { apply Qltb_ge. by rewrite Qmult_comm. }
  rewrite Hv90, Hv75, Hpow.
  destruct (decide (85 < temperature stats)%Z); [lia|].
  destruct (decide (80 < temperature stats)%Z); [lia|].
  destruct (bool_decide (gpu_utilization stats < 10)%Z) eqn:E1;
    destruct (bool_decide (4000 < vram_used stats)%Z) eqn:E2; simpl; try done.
  apply bool_decide_eq_true in E1, E2. exfalso. by apply Hidle.
Qed.

Lemma get_recommendations_thresholds_witness :
  (MSG_VRAM_CRITICAL ∈ get_recommendations hot_stats /\
   MSG_TEMP_CRITICAL ∈ get_recommendations hot_stats) /\
  get_recommendations (_get_mock_stats 0) = [MSG_NORMAL].
Proof.
  split.
  - apply (get_recommendations_thresholds hot_stats); [reflexivity | simpl; lia].
  - apply (get_recommendations_thresholds (_get_mock_stats 0)).
    + simpl. unfold Qle. simpl. lia.
    + simpl. lia.
    + simpl. unfold Qle. simpl. lia.
    + simpl. lia.
Defined.

(** *** The monitoring loop when a sample fails *)

(** Sampling fails: [get_gpu_stats] produces no snapshot. *)
Definition sampling_fails (env : tick_env) (m : monitor) : Prop :=
  (get_gpu_stats (now env) (nvml env) m).1 = None.

(** The behaviour on a failed sample with a wait of five times the
    sampling interval of one second. *)
Definition backs_off_on_failed_sample (lower : string -> string)
    (env : tick_env) (m : monitor) : Prop :=
  sampling_fails env m ->
  history (next (monitor_tick lower env m)) = history m /\
  delivered (monitor_tick lower env m) = [] /\
  slept (monitor_tick lower env m) = (5 * 1)%Z.

(** A monitor with NVML initialised, one retained sample and two
    subscribers, and an iteration in which the NVML query raises. *)
Definition live_monitor : monitor :=
  {| nvml_available := true; handle := Some 0%Z;
     history := [_get_mock_stats 0]; running := true;
     clients := {[ 1%nat; 2%nat ]}; log := [] |}.

Definition failing_tick : tick_env :=
  {| now := 1; nvml := NvmlRaised "GPU is lost";
     body_raises := None; send_ok := fun _ => true |}.

(** C2, as stated, fails: after a failed sample the loop sleeps for 1
    second, not 5. *)
Lemma failed_sample_sleeps_one_second :
  sampling_fails failing_tick live_monitor /\
  slept (monitor_tick lower_ascii failing_tick live_monitor) = 1%Z /\
  ~ backs_off_on_failed_sample lower_ascii failing_tick live_monitor.
Proof.
  split; [reflexivity|]. split; [reflexivity|].
  intros H. destruct (H eq_refl) as (_ & _ & Hslept). discriminate Hslept.
Qed.

Lemma sampling_fails_inv env m :
  sampling_fails env m ->
  exists e, nvml env = NvmlRaised e /\
            get_gpu_stats (now env) (nvml env) m
              = (None, ["Error getting GPU stats: " +:+ e]).
Proof.
  unfold sampling_fails, get_gpu_stats.
  destruct (negb (nvml_available m) || bool_decide (handle m = None)); [done|].
  destruct (nvml env) as [stats|e]; [done|]. intros _. by exists e.
Qed.

(** C2, amended. When sampling fails (the NVML query raises and
    [get_gpu_stats] returns no snapshot), the failure is logged, the
    iteration appends nothing to the history, broadcasts nothing, keeps
    the subscribers, and ends with the ordinary 1 second sleep, after
    which the loop goes on with the next iteration.  The 5 second sleep
    is taken exactly in the iterations where a snapshot was obtained and
    an exception escapes the rest of the body. *)
Theorem failed_sample_skips_tick (lower : string -> string)
    (env : tick_env) (m : monitor) :
  (sampling_fails env m ->
     (exists e, nvml env = NvmlRaised e /\
        log (next (monitor_tick lower env m))
          = log m ++ ["Error getting GPU stats: " +:+ e]) /\
     history (next (monitor_tick lower env m)) = history m /\
     clients (next (monitor_tick lower env m)) = clients m /\
     running (next (monitor_tick lower env m)) = running m /\
     delivered (monitor_tick lower env m) = [] /\
     slept (monitor_tick lower env m) = 1%Z /\
     (forall rest, running m = true ->
        monitor_loop lower (env :: rest) m
          = (monitor_tick lower env m
               :: (monitor_loop lower rest (next (monitor_tick lower env m))).1,
             (monitor_loop lower rest (next (monitor_tick lower env m))).2))) /\
  (slept (monitor_tick lower env m) = 5%Z <->
     is_Some (get_gpu_stats (now env) (nvml env) m).1 /\ is_Some (body_raises env)).
Proof.
  split.
  - intros Hfail. destruct (sampling_fails_inv env m Hfail) as (e & Hnvml & Hget).
    unfold monitor_tick. rewrite Hget. cbn.
    split; [by exists e|]. repeat (split; [done|]).
    intros rest Hrun. rewrite Hrun. unfold monitor_tick. rewrite Hget. cbn.
    by destruct (monitor_loop lower rest _).
  - unfold monitor_tick.
    destruct (get_gpu_stats (now env) (nvml env) m) as [[stats|] lines]; cbn.
    + destruct (body_raises env) as [e|]; cbn.
      * split; [by intros _; split; eexists | done].
      * case_bool_decide; cbn; (split; [done | by intros [_ [? ?]]]).
    + split; [done | by intros [[? ?] _]].
Qed.

Lemma failed_sample_skips_tick_witness :
  history (next (monitor_tick lower_ascii failing_tick live_monitor))
    = history live_monitor /\
  delivered (monitor_tick lower_ascii failing_tick live_monitor) = [] /\
  slept (monitor_tick lower_ascii failing_tick live_monitor) = 1%Z.
Proof.
  destruct (proj1 (failed_sample_skips_tick lower_ascii failing_tick live_monitor)
              eq_refl) as (_ & Hh & _ & _ & Hd & Hs & _).
  done.
Defined.

End GpuMonitorClaims.

(** ** The [/transcribe] response *)
Module WhisperClaims.
Import Whisper.

Lemma endswith_char {A} `{EqDecision A} (s : list A) (c : A) :
  endswith s [c] = true <-> exists pre, s = pre ++ [c].
Proof.
  unfold endswith. rewrite bool_decide_eq_true. simpl. split.
  - intros Hd. exists (take (length s - 1) s).
    rewrite <- Hd. by rewrite take_drop.
  - intros [pre ->]. rewrite length_app. simpl.
    replace (length pre + 1 - 1)%nat with (length pre) by lia.
    by rewrite drop_app_length.
Qed.

Lemma is_final_spec (stripped : text) :
  is_final stripped = true <->
  stripped <> [] /\
  exists pre c, stripped = pre ++ [c] /\
                (c = FULL_STOP \/ c = EXCLAMATION \/ c = QUESTION).
Proof.
  unfold is_final, endswith_any. split.
  - destruct stripped as [|x r]; [done|]. intros H. split; [done|].
    cbn [existsb] in H. rewrite !orb_true_iff in H.
    destruct H as [H|[H|[H|H]]]; [| | |done];
      apply endswith_char in H as [pre Hpre]; exists pre; eauto 6.
  - intros [Hne (pre & c & Hs & Hc)].
    destruct stripped as [|x r]; [done|]. rewrite Hs.
    cbn [existsb]. rewrite !orb_true_iff.
    destruct Hc as [-> | [-> | ->]].
    + left. apply endswith_char. by exists pre.
    + right. left. apply endswith_char. by exists pre.
    + right. right. left. apply endswith_char. by exists pre.
Qed.

Lemma lstrip_spec (s : text) :
  exists ws, s = ws ++ lstrip s /\ Forall (fun c => isspace c = true) ws /\
             match lstrip s with
             | c :: _ => isspace c = false
             | [] => True
             end.
Proof.
  induction s as [|c r (ws & Heq & Hws & Hhd)].
  - by exists [].
  - simpl. destruct (isspace c) eqn:E.
    + exists (c :: ws). split; [simpl; by rewrite <- Heq|]. split; [by constructor|done].
    + exists []. split; [done|]. split; [constructor|done].
Qed.

(** [strip] removes a run of whitespace at each end and nothing else,
    and what is left neither starts nor ends with whitespace. *)
Lemma strip_spec (s : text) :
  exists l r, s = l ++ strip s ++ r /\
              Forall (fun c => isspace c = true) l /\
              Forall (fun c => isspace c = true) r /\
              (forall c rest, strip s = c :: rest -> isspace c = false) /\
              (forall pre c, strip s = pre ++ [c] -> isspace c = false).
Proof.
  destruct (lstrip_spec s) as (l & Hl & Hwl & Hhd).
  destruct (lstrip_spec (reverse (lstrip s))) as (r & Hr & Hwr & Hlast).
  assert (Hsplit : lstrip s = strip s ++ reverse r).
  { unfold strip, rstrip. rewrite <- reverse_app, <- Hr. by rewrite reverse_involutive. }
  exists l, (reverse r). split; [by rewrite <- Hsplit|]. split; [done|].
  split; [by apply Forall_reverse|]. split.
  - intros c rest Hs. rewrite Hsplit, Hs in Hhd. exact Hhd.
  - intros pre c Hs. unfold strip, rstrip in Hs.
    apply (f_equal reverse) in Hs. rewrite reverse_involutive in Hs.
    rewrite reverse_app in Hs. simpl in Hs. by rewrite Hs in Hlast.
Qed.

(** The white space of Python's [str.isspace] and [str.strip]: the
    Unicode characters of bidirectional type WS, B or S and of category
    Zs, by code point. *)
Definition unicode_whitespace (c : N) : Prop :=
  (9 <= c <= 13 \/ 28 <= c <= 32 \/ c = 133 \/ c = 160 \/ c = 5760 \/
   8192 <= c <= 8202 \/ c = 8232 \/ c = 8233 \/ c = 8239 \/ c = 8287 \/
   c = 12288)%N.

Lemma isspace_spec (c : N) : isspace c = true <-> unicode_whitespace c.
Proof.
  unfold isspace, unicode_whitespace.
  rewrite !orb_true_iff, !andb_true_iff, !N.leb_le, !N.eqb_eq. tauto.
Qed.

Lemma isspace_false (c : N) : isspace c = false <-> ~ unicode_whitespace c.
Proof. rewrite <- isspace_spec. by destruct (isspace c). Qed.

(** C9. In every successful [/transcribe] response: [text] is the
    transcription of the model with the white space at its two ends
    removed, that is, the transcription is [text] between two runs of
    white space and [text] neither starts nor ends with white space;
    [isFinal] is true exactly when that text is non-empty and ends with
    ['.'], ['!'] or ['?']; an empty text gives [isFinal = false]; and
    [isPartial] is present exactly when the [partial] form field
    lower-cases to ['true'], and is then the negation of [isFinal]. *)
Theorem transcribe_isFinal secure_filename lower DEVICE whisper_model req r :
  transcribe secure_filename lower DEVICE whisper_model req = Transcribed r ->
  (exists audio_file raw leading trailing,
      audio req = Some audio_file /\
      whisper_model audio_file (default "en" (language_field req)) = Some raw /\
      raw = leading ++ r_text r ++ trailing /\
      Forall unicode_whitespace leading /\
      Forall unicode_whitespace trailing /\
      (forall c rest, r_text r = c :: rest -> ~ unicode_whitespace c) /\
      (forall pre c, r_text r = pre ++ [c] -> ~ unicode_whitespace c)) /\
  (isFinal r = true <->
     r_text r <> [] /\
     exists pre c, r_text r = pre ++ [c] /\
                   (c = FULL_STOP \/ c = EXCLAMATION \/ c = QUESTION)) /\
  (r_text r = [] -> isFinal r = false) /\
  (lower (default "false" (partial_field req)) = "true" ->
     isPartial r = Some (negb (isFinal r))) /\
  (lower (default "false" (partial_field req)) <> "true" -> isPartial r = None).
Proof.
  unfold transcribe. destruct (audio req) as [audio_file|]; [|done].
  case_bool_decide; [done|].
  destruct (negb _); [done|].
  case_bool_decide; [done|].
  destruct (whisper_model audio_file (default "en" (language_field req)))
    as [raw|] eqn:Hmodel; [|done].
  intros [= <-]. cbn [r_text isFinal isPartial].
  split.
  { destruct (strip_spec raw) as (l & t & Hraw & Hl & Ht & Hhead & Hlast).
    exists audio_file, raw, l, t.
    split; [done|]. split; [done|]. split; [done|].
    split; [eapply Forall_impl; [exact Hl | intros c; apply isspace_spec]|].
    split; [eapply Forall_impl; [exact Ht | intros c; apply isspace_spec]|].
    split.
    - intros c rest Hs. apply isspace_false. by eapply Hhead.
    - intros pre c Hs. apply isspace_false. by eapply Hlast. }
  split; [apply is_final_spec|].
  split; [by intros ->|].
  split.
  - intros Hpartial. by rewrite bool_decide_eq_true_2.
  - intros Hpartial. by rewrite bool_decide_eq_false_2.
Qed.

Definition wav_upload : upload := {| filename := "command.wav"; saved_size := 32044 |}.

Definition heard (raw : string) : upload -> string -> option text :=
  fun _ _ => Some (code_points raw).

Lemma transcribe_isFinal_witness :
  exists r,
    transcribe id GpuMonitorClaims.lower_ascii "cuda" (heard " Jarvis, lights on.  ")
      {| audio := Some wav_upload; language_field := None;
         partial_field := Some "True" |} = Transcribed r /\
    r_text r = code_points "Jarvis, lights on." /\
    isFinal r = true /\
    isPartial r = Some false.
Proof.
  exists {| r_text := code_points "Jarvis, lights on."; r_language := "en";
            r_device := "cuda"; isFinal := true; isPartial := Some false |}.
  split; [reflexivity|].
  pose proof (transcribe_isFinal id GpuMonitorClaims.lower_ascii "cuda"
                (heard " Jarvis, lights on.  ")
                {| audio := Some wav_upload; language_field := None;
                   partial_field := Some "True" |}
                {| r_text := code_points "Jarvis, lights on."; r_language := "en";
                   r_device := "cuda"; isFinal := true; isPartial := Some false |}
                eq_refl) as (_ & Hfinal & _ & Hpartial & _).
  split; [reflexivity|]. split.
  - apply Hfinal. split; [done|].
    exists (code_points "Jarvis, lights on"), FULL_STOP. split; [reflexivity | by left].
  - exact (Hpartial eq_refl).
Defined.

End WhisperClaims.

(** ** Replaying a request against the caches *)
Module ReplayClaims.
Import PiperFacts PiperClaims EmbeddingFacts EmbeddingReplay.

(** A request replayed after an earlier identical one gets the first
    response again and Piper is not run for it. *)
Definition tts_replay_from_cache (piper : nat -> Piper.synth_args -> Piper.synth_result)
    (t1 t1' t2 t2' : Q) (path : string) (payload : option Piper.tts_body)
    (s0 : Piper.server) : Prop :=
  let first := Piper.do_POST piper t1 t1' path payload s0 in
  let second := Piper.do_POST piper t2 t2' path payload first.2 in
  second.1 = first.1 /\ Piper.piper_calls second.2 = Piper.piper_calls first.2.

(** A Piper whose [n]-th run yields [n + 1] bytes. *)
Definition counting_piper (n : nat) (_ : Piper.synth_args) : Piper.synth_result :=
  Piper.Audio (replicate (S n) Byte.x52).

Definition say_hello : Piper.tts_body :=
  {| Piper.text := Some "hello"; Piper.speaker_id := None; Piper.speaker := None;
     Piper.length_scale := None; Piper.noise_scale := None; Piper.noise_w := None |}.

Definition fresh_tts : Piper.server :=
  {| Piper.audio_cache := []; Piper.piper_calls := 0 |}.

(** C4, as stated, fails: the same request issued again 300 seconds
    after its audio was cached finds the entry expired, runs Piper a
    second time and returns what that run produced. *)
Lemma tts_replay_after_ttl_runs_piper_again :
  Piper.piper_calls
    (Piper.do_POST counting_piper 300 300 "/tts" (Some say_hello)
       (Piper.do_POST counting_piper 0 0 "/tts" (Some say_hello) fresh_tts).2).2
    = 2%nat /\
  ~ tts_replay_from_cache counting_piper 0 0 300 300 "/tts" (Some say_hello) fresh_tts.
Proof.
  split; [reflexivity|].
  intros [_ Hcalls]. vm_compute in Hcalls. discriminate Hcalls.
Qed.

(** *** Replaying an [/embed] request *)

(** An encoder whose rows depend on the text alone, one whose rows
    depend on the call and on the position in the batch, and one that
    always raises. *)
Definition length_encoder : Embedding.encoder :=
  {| Embedding.raises := fun _ _ => false;
     Embedding.entry := fun _ batch i j =>
       inject_Z (Z.of_nat (length (default [] (batch !! i)) + j)) |}.

Definition numbering_encoder : Embedding.encoder :=
  {| Embedding.raises := fun _ _ => false;
     Embedding.entry := fun n _ i _ => inject_Z (Z.of_nat (10 * n + i)) |}.

Definition broken_encoder : Embedding.encoder :=
  {| Embedding.raises := fun _ _ => true;
     Embedding.entry := fun _ _ _ _ => 0 |}.

Definition fresh_embedding : Embedding.server :=
  {| Embedding.embedding_cache := []; Embedding.encoder_calls := 0 |}.

Definition list_of_texts (ts : list string) : Embedding.embed_body :=
  {| Embedding.texts := Embedding.TList (code_points <$> ts);
     Embedding.use_cache_field := None |}.

(** A cache at its limit of 10000 entries, under the keys ["0"] to
    ["9999"] from oldest to newest. *)
Definition old_entries : list (string * list Q) :=
  (fun i : nat => (pretty i, replicate 384 0)) <$> seq 1 (Z.to_nat 9999).

Definition full_cache : list (string * list Q) :=
  ("0", replicate 384 0) :: old_entries.

Lemma keys_numbered (l : list nat) :
  PyDict.keys ((fun i : nat => (pretty i, replicate 384 0)) <$> l)
  = (fun i : nat => pretty i) <$> l.
Proof.
  induction l as [|i l IH]; [done|].
  rewrite !fmap_cons. unfold PyDict.keys in *. cbn [map fst]. by rewrite IH.
Qed.

Lemma full_cache_keys :
  PyDict.keys full_cache = (fun i : nat => pretty i) <$> seq 0 (Z.to_nat 10000).
Proof.
  unfold full_cache.
  change (PyDict.keys (("0", replicate 384 0) :: old_entries))
    with ("0" :: PyDict.keys old_entries).
  unfold old_entries. rewrite keys_numbered.
  change (Z.to_nat 10000) with (S (Z.to_nat 9999)).
  cbn [seq]. by rewrite fmap_cons.
Qed.

Lemma full_cache_wf : PyDict.wf full_cache.
Proof.
  unfold PyDict.wf. rewrite full_cache_keys.
  apply NoDup_fmap_2; [apply _ | apply NoDup_seq].
Qed.

Lemma full_cache_len : PyDict.len full_cache = Z.to_nat 10000.
Proof.
  unfold PyDict.len, full_cache, old_entries.
  cbn [length]. rewrite length_fmap, length_seq. reflexivity.
Qed.

Lemma full_cache_rows : cached_rows_384 full_cache.
Proof.
  unfold cached_rows_384, full_cache, old_entries.
  constructor; [done|]. apply Forall_fmap, Forall_forall. by intros i _.
Qed.

Lemma full_cache_new_key : "10000" ∉ PyDict.keys full_cache.
Proof.
  rewrite full_cache_keys. intros Hin.
  apply list_elem_of_fmap in Hin as (i & Hi & Hin).
  change "10000" with (pretty (Z.to_nat 10000)) in Hi.
  apply (inj pretty) in Hi. subst i.
  apply elem_of_seq in Hin. lia.
Qed.

(** For [/embed] the claim fails as well.  The cache is full and its
    oldest key is that of the text ["0"]; a request for ["0"] and the new
    text ["10000"] is answered 200, from the cache for ["0"]; storing the
    new row makes [manage_cache] delete the 2000 oldest keys, that of
    ["0"] among them, and the same request issued again runs the encoder
    a second time. *)
Lemma embed_replay_after_pruning_runs_encoder_again :
  let data := {| Embedding.texts :=
                   Embedding.TList [code_points "0"; code_points "10000"];
                 Embedding.use_cache_field := None |} in
  let first := Embedding.embed plain_digest length_encoder 0 (1 # 50)
                 (Embedding.Json data)
                 {| Embedding.embedding_cache := ("0", replicate 384 0) :: old_entries;
                    Embedding.encoder_calls := 40 |} in
  let second := Embedding.embed plain_digest length_encoder 60 (3001 # 50)
                  (Embedding.Json data) first.2 in
  Embedding.status first.1 = 200%nat /\
  Embedding.encoder_calls first.2 = 41%nat /\
  PyDict.len (Embedding.embedding_cache first.2) = Z.to_nat 8001 /\
  Embedding.encoder_calls second.2 = 42%nat.
Proof.
  intros data first second.
  destruct (replay_after_pruning plain_digest length_encoder length_encoder
              0 (1 # 50) 60 (3001 # 50) (code_points "0") (code_points "10000")
              "0" "10000" (replicate 384 0) old_entries 40)
    as (Hresp & Hcalls & Hlen & Hagain).
  - reflexivity.
  - reflexivity.
  - exact full_cache_wf.
  - exact full_cache_new_key.
  - exact full_cache_len.
  - exact full_cache_rows.
  - reflexivity.
  - subst second first data.
    split; [by rewrite Hresp|]. split; [exact Hcalls|]. split; [exact Hlen | exact Hagain].
Qed.

(** A replay served from the cache still differs from the first response
    in [time_ms], the time the handler took. *)
Lemma embed_replay_reports_another_time :
  let first := Embedding.embed plain_digest length_encoder 0 (19 # 1250)
                 (Embedding.Json (list_of_texts ["lights on"])) fresh_embedding in
  let second := Embedding.embed plain_digest length_encoder 60 (150001 # 2500)
                  (Embedding.Json (list_of_texts ["lights on"])) first.2 in
  exists rows ms1 ms2,
    first.1 = Embedding.Embeddings rows 384 1 ms1 true /\
    second.1 = Embedding.Embeddings rows 384 1 ms2 true /\
    second.2 = first.2 /\
    ms1 == 76 # 5 /\ ms2 == 2 # 5 /\
    second.1 <> first.1.
Proof.
  do 3 eexists. split; [reflexivity|]. split; [reflexivity|].
  split; [reflexivity|]. split; [reflexivity|]. split; [reflexivity|].
  intros H. vm_compute in H. injection H as H. discriminate H.
Qed.

(** When the encoder gives two rows to a text that occurs twice, the
    first response carries both rows, the cache keeps the later one, and
    the replay returns that one twice. *)
Lemma embed_replay_of_uneven_duplicates :
  let first := Embedding.embed plain_digest numbering_encoder 0 1
                 (Embedding.Json (list_of_texts ["hi"; "hi"])) fresh_embedding in
  let second := Embedding.embed plain_digest numbering_encoder 60 61
                  (Embedding.Json (list_of_texts ["hi"; "hi"])) first.2 in
  first.1 = Embedding.Embeddings [replicate 384 0; replicate 384 1] 384 2
              (Embedding.round2 1000) true /\
  second.1 = Embedding.Embeddings [replicate 384 1; replicate 384 1] 384 2
               (Embedding.round2 1000) true /\
  second.2 = first.2.
Proof. by vm_compute. Qed.

(** C4, amended. With caching enabled, a request identical to an
    earlier one that was answered 200 is answered again with the same
    output, and the model is not invoked for it, as long as what the
    first request left in the cache is still there.  [/tts]: the first
    request was answered 200 with non-empty audio; the entry under its
    key is as that request left it and the replay looks it up less than
    300 s after it was stored.  [/embed], in a cache whose rows have 384
    floats: if texts of the request that share a cache key were given
    the same row, and if the request did not prune a key of its own
    (whenever it left the cache smaller than it found it, none of its
    keys was among the 2000 oldest), then the cache holds, under the key
    of each text, the row the response gave for it; and a replay that
    finds those entries as the request left them returns the same
    embeddings, dimension, count and flag, with its own [time_ms], and
    leaves the whole server state, call counter included, unchanged. *)
Theorem replay_served_from_cache :
  (forall piper t1 t1' path b (s0 s1 : Piper.server) r1,
     Piper.do_POST piper t1 t1' path (Some b) s0 = (r1, s1) ->
     Piper.status r1 = 200%nat ->
     Piper.body r1 <> [] ->
     exists T,
       PyDict.get (Piper.cache_key (Piper.args_of b)) (Piper.audio_cache s1)
         = Some (Piper.body r1, T) /\
       (Piper.piper_calls s1 = S (Piper.piper_calls s0) -> T = t1') /\
       forall piper' t2 t2' (s : Piper.server),
         PyDict.get (Piper.cache_key (Piper.args_of b)) (Piper.audio_cache s)
           = PyDict.get (Piper.cache_key (Piper.args_of b)) (Piper.audio_cache s1) ->
         t2 - T < 300 ->
         Piper.do_POST piper' t2 t2' path (Some b) s = (r1, s)) /\
  (forall md5_hex m t0 t1 data (s0 s1 : Embedding.server) rows dim cnt ms,
     cached_rows_384 (Embedding.embedding_cache s0) ->
     default true (Embedding.use_cache_field data) = true ->
     Embedding.embed md5_hex m t0 t1 (Embedding.Json data) s0
       = (Embedding.Embeddings rows dim cnt ms true, s1) ->
     (forall i j ti tj,
        validated_texts data !! i = Some ti -> validated_texts data !! j = Some tj ->
        Embedding.get_cache_key md5_hex ti = Embedding.get_cache_key md5_hex tj ->
        rows !! i = rows !! j) ->
     ((PyDict.len (Embedding.embedding_cache s1)
         < PyDict.len (Embedding.embedding_cache s0))%nat ->
      forall t k, t ∈ validated_texts data ->
        Embedding.get_cache_key md5_hex t = Some k ->
        k ∉ take 2000 (PyDict.keys (Embedding.embedding_cache s0))) ->
     (forall i t v,
        validated_texts data !! i = Some t -> rows !! i = Some v ->
        exists k, Embedding.get_cache_key md5_hex t = Some k /\
                  PyDict.get k (Embedding.embedding_cache s1) = Some v) /\
     forall m' t2 t3 (s : Embedding.server),
       (forall t k, t ∈ validated_texts data ->
          Embedding.get_cache_key md5_hex t = Some k ->
          PyDict.get k (Embedding.embedding_cache s)
          = PyDict.get k (Embedding.embedding_cache s1)) ->
       Embedding.embed md5_hex m' t2 t3 (Embedding.Json data) s
         = (Embedding.Embeddings rows dim cnt
              (Embedding.round2 ((t3 - t2) * 1000)) true, s)).
Proof.
  split.
  - intros piper t1 t1' path b s0 s1 r1 Hfirst Hok Hbody.
    destruct (do_POST_ok_stored piper t1 t1' path b s0 s1 r1 Hfirst Hok)
      as (Hpath & Htext & Hr1 & T & Hstored & Hfresh & _).
    exists T. split; [done|]. split; [done|].
    intros piper' t2 t2' s Hsame Hyoung.
    rewrite Hr1 at 1.
    apply (do_POST_hit piper' t2 t2' path b s (Piper.body r1) T); try done.
    by rewrite Hsame.
  - apply embed_replay.
Qed.

(** A request in which one text occurs twice. *)
Definition lights_twice : Embedding.embed_body :=
  list_of_texts ["lights on"; "what time is it"; "lights on"].

Definition lights_batch : list (list N) :=
  code_points <$> ["lights on"; "what time is it"; "lights on"].

Lemma replay_served_from_cache_witness :
  Piper.do_POST counting_piper 301 301 "/tts" (Some say_hello)
    (Piper.do_POST counting_piper 0 2 "/tts" (Some say_hello) fresh_tts).2
  = ((Piper.do_POST counting_piper 0 2 "/tts" (Some say_hello) fresh_tts).1,
     (Piper.do_POST counting_piper 0 2 "/tts" (Some say_hello) fresh_tts).2) /\
  Embedding.embed plain_digest broken_encoder 60 (150001 # 2500)
    (Embedding.Json lights_twice)
    (Embedding.embed plain_digest length_encoder 0 (19 # 1250)
       (Embedding.Json lights_twice) fresh_embedding).2
  = (Embedding.Embeddings
       (Embedding.row length_encoder 0 lights_batch <$> [0; 1; 2]%nat) 384 3
       (Embedding.round2 (((150001 # 2500) - 60) * 1000)) true,
     (Embedding.embed plain_digest length_encoder 0 (19 # 1250)
        (Embedding.Json lights_twice) fresh_embedding).2).
Proof.
  split.
  - destruct (proj1 replay_served_from_cache counting_piper 0 2 "/tts" say_hello fresh_tts
                (Piper.do_POST counting_piper 0 2 "/tts" (Some say_hello) fresh_tts).2
                (Piper.do_POST counting_piper 0 2 "/tts" (Some say_hello) fresh_tts).1)
      as (T & _ & Hstamp & Hreplay).
    + apply surjective_pairing.
    + reflexivity.
    + discriminate.
    + apply Hreplay; [reflexivity|].
      rewrite (Hstamp eq_refl). reflexivity.
  - refine (proj2 (proj2 replay_served_from_cache plain_digest length_encoder
                     0 (19 # 1250) lights_twice fresh_embedding
                     (Embedding.embed plain_digest length_encoder 0 (19 # 1250)
                        (Embedding.Json lights_twice) fresh_embedding).2
                     (Embedding.row length_encoder 0 lights_batch <$> [0; 1; 2]%nat)
                     384%nat 3%nat (Embedding.round2 (((19 # 1250) - 0) * 1000))
                     _ _ _ _ _)
                  broken_encoder 60 (150001 # 2500) _ _).
    + constructor.
    + reflexivity.
    + by vm_compute.
    + intros i j ti tj Hi Hj Hk.
      destruct i as [|[|[|i]]]; [| | |done]; destruct j as [|[|[|j]]]; try done;
        injection Hi as <-; injection Hj as <-; try reflexivity;
        vm_compute in Hk; discriminate Hk.
    + intros Hshrunk. vm_compute in Hshrunk. lia.
    + intros t k _ _. reflexivity.
Defined.

End ReplayClaims.

(** ** Runs of the model on concrete requests *)
Module Runs.
Import ReplayClaims.

(** An unknown path is answered 404 and a request without text 400; neither
    touches the cache or runs Piper. *)
Example do_POST_unknown_path :
  Piper.do_POST counting_piper 0 0 "/speak" (Some say_hello) fresh_tts
    = (Piper.empty_response 404, fresh_tts).
Proof. reflexivity. Qed.

Example do_POST_without_text :
  Piper.do_POST counting_piper 0 0 "/tts"
    (Some {| Piper.text := None; Piper.speaker_id := Some "3"; Piper.speaker := None;
             Piper.length_scale := None; Piper.noise_scale := None;
             Piper.noise_w := None |}) fresh_tts
    = (Piper.empty_response 400, fresh_tts).
Proof. reflexivity. Qed.

Example cache_key_of_hello :
  Piper.cache_key (Piper.args_of say_hello) = "hello_0_0.75_0.667_0.8".
Proof. reflexivity. Qed.

(** With equal timestamps [min] settles on the key inserted first. *)
Example oldest_key_tie :
  Piper.oldest_key [("b", ([], 7)); ("a", ([], 5)); ("c", ([], 5))] = Some "a".
Proof. reflexivity. Qed.

Definition one_text (t : string) : Embedding.embed_body :=
  {| Embedding.texts := Embedding.TStr (code_points t);
     Embedding.use_cache_field := None |}.

(** A batch with one cached text in the middle: the encoder is called once
    on the two new texts, and the rows come back in request order. *)
Example embed_mixed_batch :
  let s1 := (Embedding.embed plain_digest numbering_encoder 0 1
               (Embedding.Json (one_text "b")) fresh_embedding).2 in
  Embedding.embed plain_digest numbering_encoder 5 6
    (Embedding.Json (list_of_texts ["a"; "b"; "c"])) s1
    = (Embedding.Embeddings [replicate 384 10; replicate 384 0; replicate 384 11]
         384 3 (Embedding.round2 1000) true,
       {| Embedding.embedding_cache :=
            [("b", replicate 384 0); ("a", replicate 384 10); ("c", replicate 384 11)];
          Embedding.encoder_calls := 2 |}).
Proof. by vm_compute. Qed.

(** An empty list of texts is answered with one empty row. *)
Example embed_empty_list :
  Embedding.embed plain_digest numbering_encoder 0 1
    (Embedding.Json (list_of_texts [])) fresh_embedding
    = (Embedding.Embeddings [[]] 384 1 (Embedding.round2 1000) true, fresh_embedding).
Proof. reflexivity. Qed.

(** A body that cannot be read is answered 500 and a body without
    ['texts'] 400; neither reaches the encoder. *)
Example embed_unreadable_body :
  Embedding.embed plain_digest numbering_encoder 0 1 Embedding.Unreadable fresh_embedding
    = (Embedding.ServerError, fresh_embedding) /\
  Embedding.embed plain_digest numbering_encoder 0 1 Embedding.NoTexts fresh_embedding
    = (Embedding.ClientError 400 "Missing 'texts' field in request body",
       fresh_embedding).
Proof. by split. Qed.

(** The length limit counts characters, not bytes: a text of 4000 CJK
    characters (12000 bytes of UTF-8) is embedded, one of 10001 characters
    is refused. *)
Example embed_counts_characters :
  Embedding.status
    (Embedding.embed plain_digest numbering_encoder 0 1
       (Embedding.Json {| Embedding.texts := Embedding.TStr (replicate 4000 26085%N);
                          Embedding.use_cache_field := None |})
       fresh_embedding).1 = 200%nat /\
  Embedding.status
    (Embedding.embed plain_digest numbering_encoder 0 1
       (Embedding.Json {| Embedding.texts :=
                            Embedding.TStr (replicate (Z.to_nat 10001) 97%N);
                          Embedding.use_cache_field := None |})
       fresh_embedding).1 = 400%nat.
Proof. by vm_compute. Qed.

(** A text with a lone surrogate has no UTF-8 encoding: with caching on
    the key cannot be computed, the request is answered 500 and the
    encoder is not run. *)
Example embed_lone_surrogate :
  Embedding.embed plain_digest numbering_encoder 0 1
    (Embedding.Json {| Embedding.texts := Embedding.TList [[104; 55296; 105]%N];
                       Embedding.use_cache_field := None |})
    fresh_embedding
  = (Embedding.ServerError, fresh_embedding).
Proof. reflexivity. Qed.

(** A cached row that has not 384 floats cannot be written into the
    matrix of a mixed batch: the request is answered 500. *)
Example embed_mixed_batch_bad_width :
  Embedding.status
    (Embedding.embed plain_digest numbering_encoder 0 1
       (Embedding.Json (list_of_texts ["a"; "b"]))
       {| Embedding.embedding_cache := [("b", [0; 0])];
          Embedding.encoder_calls := 1 |}).1 = 500%nat.
Proof. by vm_compute. Qed.

Example strip_transcription :
  Whisper.strip (code_points " Hello there.  ")
    = code_points "Hello there.".
Proof. reflexivity. Qed.

Example is_final_examples :
  Whisper.is_final (code_points "Stop!") = true /\
  Whisper.is_final (code_points "and then") = false /\
  Whisper.is_final [] = false.
Proof. by repeat split. Qed.

(** The mock snapshot: ollama is an LLM, the bare interpreter is "other". *)
Example detect_models_mock :
  GpuMonitor.detect_models GpuMonitorClaims.lower_ascii
    (GpuMonitor.processes (GpuMonitor._get_mock_stats 0))
    = {| GpuMonitor.llm :=
           [ {| GpuMonitor.pid := 1234; GpuMonitor.name := "ollama.exe";
                GpuMonitor.vram_mb := 5120; GpuMonitor.proc_type := "compute" |} ];
         GpuMonitor.whisper := [];
         GpuMonitor.embedding := [];
         GpuMonitor.other :=
           [ {| GpuMonitor.pid := 5678; GpuMonitor.name := "python.exe";
                GpuMonitor.vram_mb := 512; GpuMonitor.proc_type := "compute" |} ] |}.
Proof. reflexivity. Qed.

(** An iteration with a good sample: the history grows, the subscriber
    whose send fails is dropped, the other one gets the frame, and the loop
    sleeps for a second. *)
Example monitor_tick_good_sample :
  let env := {| GpuMonitor.now := 1;
                GpuMonitor.nvml := GpuMonitor.Sampled GpuMonitorClaims.hot_stats;
                GpuMonitor.body_raises := None;
                GpuMonitor.send_ok := fun c => bool_decide (c = 1%nat) |} in
  let r := GpuMonitor.monitor_tick GpuMonitorClaims.lower_ascii env
             GpuMonitorClaims.live_monitor in
  length (GpuMonitor.history (GpuMonitor.next r)) = 2%nat /\
  GpuMonitor.clients (GpuMonitor.next r) = {[ 1%nat ]} /\
  fst <$> GpuMonitor.delivered r = [1%nat] /\
  GpuMonitor.slept r = 1%Z.
Proof. by vm_compute. Qed.

End Runs.
